(** * Shallow embedding of the llm-describe-image task pipeline

    Modules:
    - [Stats]     : [TaskStats] of src/tasks/task.py
    - [TaskQ]     : [Task] queue/active management of src/tasks/task.py
    - [Discover]  : [DiscoverTask] priority queue of src/tasks/1. discover/task.py
    - [Worker]    : [Pipeline._worker_thread] of src/pipelines/pipeline.py
    - [Context]   : [ContextTask] of src/tasks/context/task.py
    - [Write]     : [WriteTask.execute] of src/tasks/write/task.py
    - [StatsFmt], [TaskRun], [DiscoverRun]: [TaskStats.format] and runs of
      [Task] and [DiscoverTask] operations
    - [PathOps]   : [os.path.splitext], [os.path.dirname] and
      [Task.get_preferred_image_path]
    - [DiscoverExec] : [DiscoverTask.execute] of src/tasks/1. discover/task.py
    - [SkipCheck] : [SkipCheckTask.execute] of src/tasks/skip_check/task.py
    - [ContextRead] : [ContextTask._read_description]
    - [Samples]   : directory trees and stage inputs for the examples *)

From Stdlib Require Import ZArith QArith Lia.
From stdpp Require Import base list gmap strings.
From Stdlib Require Import Ascii.

Open Scope Z_scope.

(* ===================================================================== *)
(** ** TaskStats *)
(* ===================================================================== *)

Module Stats.

(** [class TaskStats]: Python ints are unbounded, so every counter is a [Z]. *)
Record TaskStats := mkStats {
  diff_input_output : bool;
  done : Z;
  failed : Z;
  input : Z;
  output : Z;
  rejected : Z
}.

(** [TaskStats.__init__] *)
Definition init : TaskStats := mkStats false 0 0 0 0 0.

(** [TaskStats.finish(output_count)] *)
Definition finish (s : TaskStats) (output_count : Z) : TaskStats :=
  mkStats (if negb (Z.eqb output_count 1) then true else diff_input_output s)
          (done s + 1) (failed s) (input s + 1)
          (output s + output_count) (rejected s).

(** [TaskStats.fail()] *)
Definition fail (s : TaskStats) : TaskStats :=
  mkStats (diff_input_output s) (done s) (failed s + 1) (input s + 1)
          (output s) (rejected s).

(** [TaskStats.reject()] *)
Definition reject (s : TaskStats) : TaskStats :=
  mkStats (diff_input_output s) (done s) (failed s) (input s + 1)
          (output s) (rejected s + 1).

(** The three recording calls a caller can make. *)
Inductive call := CFinish (n : Z) | CFail | CReject.

Definition apply_call (s : TaskStats) (c : call) : TaskStats :=
  match c with
  | CFinish n => finish s n
  | CFail => fail s
  | CReject => reject s
  end.

Definition run (s : TaskStats) (cs : list call) : TaskStats :=
  fold_left apply_call cs s.

Definition balanced (s : TaskStats) : Prop :=
  input s = done s + failed s + rejected s.

End Stats.

(* ===================================================================== *)
(** ** Task: queue and active list *)
(* ===================================================================== *)

Module TaskQ.
Section TaskQ.

Context {A : Type} `{EqDecision A}.

(** [class Task]: items waiting, items processing, and the capacity. *)
Record Task := mkTask {
  queue : list A;
  active : list A;
  maximum : Z;
  recent : Stats.TaskStats;
  total : Stats.TaskStats
}.

Definition new_task (maximum : Z) : Task :=
  mkTask [] [] maximum Stats.init Stats.init.

(** [list.remove(x)] when [x in list]: removes the first equal element. *)
Fixpoint remove_first (x : A) (l : list A) : list A :=
  match l with
  | [] => []
  | y :: l' => if decide (x = y) then l' else y :: remove_first x l'
  end.

(** [Task.add] *)
Definition add (t : Task) (item : A) : Task :=
  mkTask (queue t ++ [item]) (active t) (maximum t) (recent t) (total t).

(** [len(next_task.queue) >= next_task.maximum * backpressure_multiplier];
    the float multiplier is a rational (2.0 and the like are exact). *)
Definition downstream_full (next_task : Task) (backpressure_multiplier : Q) : bool :=
  Qle_bool (inject_Z (maximum next_task) * backpressure_multiplier)
           (inject_Z (Z.of_nat (length (queue next_task)))).

(** [Task.start_next(next_task, backpressure_multiplier)]: returns the
    started item (if any) and the new state of [self]. *)
Definition start_next (t : Task) (next_task : option Task)
    (backpressure_multiplier : Q) : option A * Task :=
  if Z.leb (maximum t) (Z.of_nat (length (active t))) then (None, t)
  else match queue t with
  | [] => (None, t)
  | item :: rest =>
      match next_task with
      | Some nt =>
          if downstream_full nt backpressure_multiplier then (None, t)
          else (Some item, mkTask rest (active t ++ [item]) (maximum t) (recent t) (total t))
      | None => (Some item, mkTask rest (active t ++ [item]) (maximum t) (recent t) (total t))
      end
  end.

(** [if item in self.active: self.active.remove(item)] *)
Definition drop_active (t : Task) (item : A) : list A :=
  if decide (item ∈ active t) then remove_first item (active t) else active t.

(** [Task.finish], [Task.fail], [Task.reject] *)
Definition finish (t : Task) (item : A) (output_count : Z) : Task :=
  mkTask (queue t) (drop_active t item) (maximum t)
         (Stats.finish (recent t) output_count) (Stats.finish (total t) output_count).

Definition fail (t : Task) (item : A) : Task :=
  mkTask (queue t) (drop_active t item) (maximum t)
         (Stats.fail (recent t)) (Stats.fail (total t)).

Definition reject (t : Task) (item : A) : Task :=
  mkTask (queue t) (drop_active t item) (maximum t)
         (Stats.reject (recent t)) (Stats.reject (total t)).

(** The operations a worker or the pipeline performs on one task. *)
Inductive op :=
  | OAdd (x : A)
  | OStartNext (next_task : option Task) (m : Q)
  | OFinish (x : A) (n : Z)
  | OFail (x : A)
  | OReject (x : A).

Definition step (t : Task) (o : op) : Task :=
  match o with
  | OAdd x => add t x
  | OStartNext nt m => snd (start_next t nt m)
  | OFinish x n => finish t x n
  | OFail x => fail t x
  | OReject x => reject t x
  end.

Definition run (t : Task) (os : list op) : Task := fold_left step os t.

End TaskQ.
End TaskQ.

(* ===================================================================== *)
(** ** DiscoverTask: depth-priority queue on top of [heapq] *)
(* ===================================================================== *)

Module Discover.
Section Discover.

(** [os.sep], a single character. *)
Context (sep : Ascii.ascii).

(** [str.count(os.sep)] *)
Fixpoint count_char (c : Ascii.ascii) (s : string) : Z :=
  match s with
  | EmptyString => 0
  | String a s' => (if Ascii.eqb a c then 1 else 0) + count_char c s'
  end.

(** Heap entries [(-depth, counter, item)]. *)
Definition entry : Type := (Z * Z * string)%type.

Definition prio (e : entry) : Z := fst (fst e).
Definition seqno (e : entry) : Z := snd (fst e).
Definition item_of (e : entry) : string := snd e.

(** Python's tuple order on [(-depth, counter, ...)]: lexicographic on the
    first two fields (the counters are distinct, so the string is never
    compared). *)
Definition entry_lt (e1 e2 : entry) : bool :=
  Z.ltb (prio e1) (prio e2) || (Z.eqb (prio e1) (prio e2) && Z.ltb (seqno e1) (seqno e2)).

Fixpoint min_entry (best : entry) (l : list entry) : entry :=
  match l with
  | [] => best
  | e :: l' => min_entry (if entry_lt e best then e else best) l'
  end.

Fixpoint remove_entry (x : entry) (l : list entry) : list entry :=
  match l with
  | [] => []
  | y :: l' => if decide (x = y) then l' else y :: remove_entry x l'
  end.

(** [heapq.heappush] and [heapq.heappop] by the library's contract: the heap
    holds the pushed entries, and [heappop] removes and returns the
    smallest one. *)
Definition heappush (h : list entry) (e : entry) : list entry := h ++ [e].

Definition heappop (h : list entry) : option (entry * list entry) :=
  match h with
  | [] => None
  | e :: h' => let m := min_entry e h' in Some (m, remove_entry m h)
  end.

(** [class DiscoverTask]: the fields [start_next] and [add] touch. *)
Record DiscoverTask := mkDiscover {
  heap_queue : list entry;
  counter : Z;
  active : list string;
  maximum : Z
}.

Definition new_discover (maximum : Z) : DiscoverTask := mkDiscover [] 0 [] maximum.

(** [DiscoverTask.queue] (the property) *)
Definition queue (t : DiscoverTask) : list string := map item_of (heap_queue t).

(** [DiscoverTask.add] *)
Definition add (t : DiscoverTask) (item : string) : DiscoverTask :=
  let depth := count_char sep item in
  mkDiscover (heappush (heap_queue t) (- depth, counter t, item))
             (counter t + 1) (active t) (maximum t).

(** [DiscoverTask.start_next] *)
Definition start_next (t : DiscoverTask) (next_task : option (@TaskQ.Task string))
    (backpressure_multiplier : Q) : option string * DiscoverTask :=
  if Z.leb (maximum t) (Z.of_nat (length (active t))) then (None, t)
  else if decide (heap_queue t = []) then (None, t)
  else if (match next_task with
           | Some nt => TaskQ.downstream_full nt backpressure_multiplier
           | None => false end) then (None, t)
  else match heappop (heap_queue t) with
       | Some (e, h') =>
           (Some (item_of e), mkDiscover h' (counter t) (active t ++ [item_of e]) (maximum t))
       | None => (None, t)
       end.

Inductive op :=
  | DAdd (item : string)
  | DStartNext (next_task : option (@TaskQ.Task string)) (m : Q).

(** Run a sequence of operations, collecting the items [start_next] returns. *)
Fixpoint exec (t : DiscoverTask) (os : list op) : DiscoverTask * list string :=
  match os with
  | [] => (t, [])
  | DAdd x :: os' => exec (add t x) os'
  | DStartNext nt m :: os' =>
      let '(r, t') := start_next t nt m in
      let '(t'', outs) := exec t' os' in
      (t'', match r with Some x => x :: outs | None => outs end)
  end.

End Discover.
End Discover.

(* ===================================================================== *)
(** ** Pipeline._worker_thread: one iteration of the loop on a started item *)
(* ===================================================================== *)

Module Worker.

#[local] Set Warnings "-register-all".

(** The Python values that flow between stages. *)
Inductive pyval :=
  | PNone
  | PBool (b : bool)
  | PInt (z : Z)
  | PStr (s : string)
  | PTuple (l : list pyval)
  | PList (l : list pyval)
  | PExc (msg : string).

(** Python truthiness. *)
Definition truthy (v : pyval) : bool :=
  match v with
  | PNone => false
  | PBool b => b
  | PInt z => negb (Z.eqb z 0)
  | PStr s => negb (String.eqb s "")
  | PTuple l | PList l => negb (Nat.eqb (length l) 0)
  | PExc _ => true
  end.

(** A call either returns or raises an exception value. *)
Inductive outcome (X : Type) := Ret (x : X) | Raise (e : pyval).
Arguments Ret {X} x.
Arguments Raise {X} e.

(** What the loop body does to the stage and its successor. *)
Inductive event :=
  | EFinish (item : pyval) (output_count : Z)   (* task.finish(item, n) *)
  | EFail (item : pyval)                        (* task.fail(item) *)
  | EReject (item : pyval)                      (* task.reject(item) *)
  | EAddNext (v : pyval)                        (* next_task.add(v) *)
  | EVerbose (item : pyval)                     (* verbose status report *)
  | EPending (items : list pyval).              (* task.pending_queue.extend *)

(** A state-and-exception monad: the log of events survives a raise. *)
Definition M (X : Type) : Type := list event -> outcome X * list event.

Definition ret {X} (x : X) : M X := fun log => (Ret x, log).
Definition bind {X Y} (m : M X) (k : X -> M Y) : M Y :=
  fun log => match m log with
             | (Ret x, log') => k x log'
             | (Raise e, log') => (Raise e, log')
             end.
Definition emit (ev : event) : M unit := fun log => (Ret tt, log ++ [ev]).
Definition lift {X} (o : outcome X) : M X := fun log => (o, log).
Definition try_except {X} (m : M X) (h : pyval -> M X) : M X :=
  fun log => match m log with
             | (Raise e, log') => h e log'
             | r => r
             end.

Notation "x <-- m ;; k" := (bind m (fun x => k)) (at level 100, m at next level, right associativity).
Notation "m ;;; k" := (bind m (fun _ => k)) (at level 100, right associativity).

Fixpoint add_all (l : list pyval) : M unit :=
  match l with
  | [] => ret tt
  | r :: l' => emit (EAddNext r) ;;; add_all l'
  end.

(** [list.extend(v)]: any iterable; a string extends by its characters. *)
Definition iter_items (v : pyval) : outcome (list pyval) :=
  match v with
  | PList l | PTuple l => Ret l
  | PStr s => Ret (map (fun c => PStr (String c EmptyString)) (String.list_ascii_of_string s))
  | _ => Raise (PExc "TypeError: object is not iterable")
  end.

Definition py_len_list (v : pyval) : option Z :=
  match v with PList l => Some (Z.of_nat (length l)) | _ => None end.

Section Loop.

(** The stage and its configuration ([THREAD_CONFIG] entry). *)
Context (execute : pyval -> outcome pyval).
Context (next_task_present : bool).
Context (transform : option (pyval -> outcome pyval)).
Context (check_rejection : option (pyval -> outcome pyval)).
Context (has_pending_queue : bool).
Context (has_pending_attr : bool).   (* hasattr(task, 'pending_queue') *)
Context (verbose : bool).

(** Output counting and the pending split of the non-rejected branch:
    returns [(output_count, pending_items, result)]. *)
Definition count_outputs (result : pyval) : Z * pyval * pyval :=
  match result with
  | PTuple [actual_result; pending_items] =>
      if has_pending_queue then
        let c1 := match py_len_list actual_result with
                  | Some n => n
                  | None => if truthy actual_result then 1 else 0 end in
        let c2 := match py_len_list pending_items with Some n => n | None => 0 end in
        (c1 + c2, pending_items, actual_result)
      else (1, PList [], result)
  | _ =>
      match py_len_list result with
      | Some n => (n, PList [], result)
      | None => (match result with PNone => 0 | _ => 1 end, PList [], result)
      end
  end.

(** The body of [while not stop_event.is_set()] after [item] was started. *)
Definition loop_body (item : pyval) : M unit :=
  try_except
    (result <-- lift (execute item) ;;
     is_rejected <-- (match check_rejection with
                     | Some f => r <-- lift (f result) ;; ret (truthy r)
                     | None => ret false
                     end) ;;
     result <-- (if is_rejected then emit (EReject item) ;;; ret result
                else
                  let '(output_count, pending_items, result') := count_outputs result in
                  emit (EFinish item output_count) ;;;
                  (if verbose then emit (EVerbose item) else ret tt) ;;;
                  (if truthy pending_items && has_pending_attr then
                     l <-- lift (iter_items pending_items) ;; emit (EPending l)
                   else ret tt) ;;;
                  ret result') ;;
     if next_task_present && negb is_rejected then
       result <-- (match transform with
                  | Some f => lift (f result)
                  | None => ret result
                  end) ;;
       match result with
       | PList l => add_all l
       | PNone => ret tt
       | r => emit (EAddNext r)
       end
     else ret tt)
    (fun e =>
       (if next_task_present then
          match item with
          | PTuple (input_path :: _) => emit (EAddNext (PTuple [input_path; e]))
          | _ => ret tt
          end
        else ret tt) ;;;
       emit (EFail item)).

End Loop.

(** Events of one iteration, from an empty log. *)
Definition events_of (m : M unit) : list event := snd (m []).

Definition is_disposition (ev : event) : bool :=
  match ev with EFinish _ _ | EFail _ | EReject _ => true | _ => false end.

Definition dispositions (evs : list event) : list event := filter is_disposition evs.

End Worker.

(* ===================================================================== *)
(** ** ContextTask *)
(* ===================================================================== *)

Module Context.
Import Worker.

(** Float scores: a finite number of seconds or [float('inf')]. *)
Inductive ext := Fin (z : Z) | Inf.

Definition ext_le (a b : ext) : bool :=
  match a, b with
  | Fin x, Fin y => Z.leb x y
  | _, Inf => true
  | Inf, Fin _ => false
  end.

Definition ext_lt_inf (a : ext) : bool := match a with Fin _ => true | Inf => false end.

(** [(min_score, max_score)] *)
Definition score : Type := (ext * ext)%type.

(** The datetime entries of [get_image_metadata]'s dict, as seconds. *)
Record Metadata := mkMeta {
  datetime : option Z;
  datetime_min : option Z;
  datetime_max : option Z
}.

Definition type_error : pyval := PExc "TypeError: unsupported operand type(s) for -".

(** [ContextTask._calculate_relevance_score] *)
Definition calculate_relevance_score (target_metadata candidate_metadata : Metadata)
    : outcome score :=
  match datetime target_metadata, datetime candidate_metadata with
  | Some _, Some _ =>
      match datetime_max target_metadata, datetime_min candidate_metadata with
      | Some tmax, Some cmin =>
          let time_diff_min := Z.abs (tmax - cmin) in
          match datetime_min target_metadata, datetime_max candidate_metadata with
          | Some tmin, Some cmax =>
              let time_diff_max := Z.abs (tmin - cmax) in
              Ret (Fin time_diff_min, Fin time_diff_max)
          | _, _ => Raise type_error
          end
      | _, _ => Raise type_error
      end
  | _, _ => Ret (Inf, Inf)
  end.

(** [list.sort(key=lambda x: x[0][1])]: a stable ascending sort. *)
Fixpoint insert_by_max (x : score * string) (l : list (score * string)) : list (score * string) :=
  match l with
  | [] => [x]
  | y :: l' => if ext_le (snd (fst y)) (snd (fst x)) then y :: insert_by_max x l' else x :: l
  end.

Definition sort_by_max (l : list (score * string)) : list (score * string) :=
  fold_left (fun acc x => insert_by_max x acc) l [].

(** Python slice [l[:n]] *)
Definition py_take {X} (n : Z) (l : list X) : list X :=
  if Z.leb 0 n then firstn (Z.to_nat n) l
  else firstn (Z.to_nat (Z.of_nat (length l) + n)) l.

Section ContextTask.

(** [ContextTask._read_description(path, use_original=True)]: the stripped
    content of the description file, [None] when it is absent or unreadable. *)
Context (read_description : string -> option string).
(** [get_image_metadata] *)
Context (get_image_metadata : string -> Metadata).
(** [os.path.normpath] *)
Context (normpath : string -> string).
(** The two directory walks of [_get_nearby_images]
    ([all_images = all_up_images + all_down_images]). *)
Context (collect_images : string -> list string).
Context (max_context_items : Z).

Fixpoint score_all (input_path : string) (target_metadata : Metadata) (imgs : list string)
    : outcome (list (score * string)) :=
  match imgs with
  | [] => Ret []
  | img_path :: imgs' =>
      if decide (normpath img_path = normpath input_path)
      then score_all input_path target_metadata imgs'
      else match calculate_relevance_score target_metadata (get_image_metadata img_path) with
           | Raise e => Raise e
           | Ret sc =>
               match score_all input_path target_metadata imgs' with
               | Raise e => Raise e
               | Ret rest => Ret ((sc, img_path) :: rest)
               end
           end
  end.

(** [ContextTask._get_nearby_images]: scoring and ranking of the collected
    images; any exception yields []. *)
Definition get_nearby_images (input_path : string) (target_metadata : Metadata)
    : list (score * string) :=
  match collect_images input_path with
  | [] => []
  | all_images =>
      match score_all input_path target_metadata all_images with
      | Raise _ => []
      | Ret scored_candidates => sort_by_max scored_candidates
      end
  end.

(** The ranked candidates [execute] receives for [input_path]. *)
Definition nearby_of (input_path : string) : list (score * string) :=
  get_nearby_images input_path (get_image_metadata input_path).

(** [if not desc]: [None] and [""] are falsy. *)
Definition desc_truthy (d : option string) : option string :=
  match d with
  | Some s => if String.eqb s "" then None else Some s
  | None => None
  end.

(** The candidate loop: [None] is the early [return] on a candidate
    without a description; otherwise the kept [(score, path, desc, desc)]. *)
Fixpoint gather (cands : list (score * string))
    : option (list (score * string * string * string)) :=
  match cands with
  | [] => Some []
  | (sc, img_path) :: cands' =>
      match desc_truthy (read_description img_path) with
      | None => None
      | Some desc =>
          match gather cands' with
          | None => None
          | Some rest =>
              Some (if ext_lt_inf (snd sc) then (sc, img_path, desc, desc) :: rest else rest)
          end
      end
  end.

Definition empty_context (input_path original_desc : string) : pyval :=
  PTuple [PStr input_path; PStr original_desc; PList []; PStr original_desc; PList []].

(** [ContextTask.execute] *)
Definition execute (input_path : string) : pyval :=
  match desc_truthy (read_description input_path) with
  | None => PTuple [PStr input_path; PStr ""; PList []]
  | Some original_desc =>
      let target_metadata := get_image_metadata input_path in
      let candidates_to_check := get_nearby_images input_path target_metadata in
      match candidates_to_check with
      | [] => empty_context input_path original_desc
      | _ =>
          match gather candidates_to_check with
          | None => empty_context input_path original_desc
          | Some context_candidates =>
              let kept := py_take max_context_items context_candidates in
              let context_full_descs := map (fun '(_, _, full_desc, _) => PStr full_desc) kept in
              let context_descriptions := map (fun '(_, _, _, desc) => PStr desc) kept in
              PTuple [PStr input_path; PStr original_desc; PList context_descriptions;
                      PStr original_desc; PList context_full_descs]
          end
      end
  end.

End ContextTask.

(** The interval bounds the spec asks for: the least and the greatest
    distance between a point of [[tmin, tmax]] and a point of [[cmin, cmax]]. *)
Definition spec_min_distance (tmin tmax cmin cmax : Z) : Z :=
  Z.max 0 (Z.max (cmin - tmax) (tmin - cmax)).

Definition spec_max_distance (tmin tmax cmin cmax : Z) : Z :=
  Z.max (cmax - tmin) (tmax - cmin).

End Context.

(* ===================================================================== *)
(** ** os.path.splitext, os.path.dirname and Task.get_preferred_image_path *)
(* ===================================================================== *)

Module PathOps.

(** [str.rfind(c)] for a one-character [c]: the last index, or -1. *)
Fixpoint rfind_aux (c : ascii) (l : list ascii) (i acc : Z) : Z :=
  match l with
  | [] => acc
  | a :: l' => rfind_aux c l' (i + 1) (if Ascii.eqb a c then i else acc)
  end.

Definition rfind (c : ascii) (s : string) : Z := rfind_aux c (String.list_ascii_of_string s) 0 (-1).

(** [s[:i]], [s[i:]] and [s[i:i+1]] for [0 <= i]. *)
Definition slice_to (s : string) (i : Z) : string :=
  String.string_of_list_ascii (firstn (Z.to_nat i) (String.list_ascii_of_string s)).
Definition slice_from (s : string) (i : Z) : string :=
  String.string_of_list_ascii (skipn (Z.to_nat i) (String.list_ascii_of_string s)).
Definition char_at (s : string) (i : Z) : option ascii :=
  nth_error (String.list_ascii_of_string s) (Z.to_nat i).

(** The loop [while filenameIndex < dotIndex: if p[filenameIndex:filenameIndex+1]
    != extsep: return ...; filenameIndex += 1] of [genericpath._splitext]:
    [true] when it returns the split. Its fuel is the number of iterations,
    [dotIndex - filenameIndex]. *)
Fixpoint skip_dots (p : string) (filenameIndex dotIndex : Z) (fuel : nat) : bool :=
  match fuel with
  | O => false
  | S fuel' =>
      if Z.ltb filenameIndex dotIndex then
        if decide (char_at p filenameIndex = Some "."%char)
        then skip_dots p (filenameIndex + 1) dotIndex fuel'
        else true
      else false
  end.

(** [os.path.splitext] on POSIX ([sep = '/'], no [altsep], [extsep = '.']). *)
Definition splitext (p : string) : string * string :=
  let sepIndex := rfind "/"%char p in
  let dotIndex := rfind "."%char p in
  if Z.ltb sepIndex dotIndex then
    if skip_dots p (sepIndex + 1) dotIndex (Z.to_nat (dotIndex - (sepIndex + 1)))
    then (slice_to p dotIndex, slice_from p dotIndex)
    else (p, "")
  else (p, "").

(** [posixpath.dirname]: [head = p[:p.rfind('/') + 1]], with its trailing
    slashes stripped unless it consists of slashes only. *)
Fixpoint drop_seps (l : list ascii) : list ascii :=
  match l with
  | c :: l' => if Ascii.eqb c "/"%char then drop_seps l' else l
  | [] => []
  end.

Definition dirname (p : string) : string :=
  let head := slice_to p (rfind "/"%char p + 1) in
  let hl := String.list_ascii_of_string head in
  if negb (String.eqb head "") && negb (forallb (fun c => Ascii.eqb c "/"%char) hl)
  then String.string_of_list_ascii (List.rev (drop_seps (List.rev hl)))
  else head.

(** [Task.get_preferred_image_path]; [os.path.exists] is a parameter. *)
Definition get_preferred_image_path (exists_ : string -> bool) (input_path : string) : string :=
  let '(base, ext) := splitext input_path in
  let fixed_path := (base ++ ".fixed" ++ ext)%string in
  if exists_ fixed_path then fixed_path else input_path.

End PathOps.

(* ===================================================================== *)
(** ** WriteTask.execute *)
(* ===================================================================== *)

Module Write.
Import Worker.

(** The files of the output tree: path to content. *)
Abbreviation fs := (gmap string string).

(** [Union[str, Exception]]: [str(e)] is the exception's message. *)
Inductive payload := PContent (s : string) | PError (msg : string).

(** Result of [str.format] with keyword arguments. *)
Inductive fmt_result := FOk (s : string) | FKeyError | FOtherError (e : pyval).

(** What the file system answers beyond the contents of the files: the
    exception [os.makedirs(d, exist_ok=True)] raises for a non-empty [d], the
    one [open(path, "w")] raises, and the one [os.remove(path)] raises, if any. *)
Record os_env := mkOS {
  makedirs_error : fs -> string -> option pyval;
  open_error : fs -> string -> option pyval;
  remove_error : fs -> string -> option pyval
}.

Section WriteTask.

Context {DT : Type}.
(** [dt.strftime(...)] as the source chooses it (date-only when midnight). *)
Context (render_datetime : DT -> string).

Record Metadata := mkMeta {
  datetime : option DT;
  location_str : option string;
  filename : option string
}.

(** The 2-tuple (error case) and the 3-tuple (success case) inputs. *)
Inductive item := Item2 (input_path : string) (c : payload)
                | Item3 (input_path : string) (c : payload) (metadata : option Metadata).

Context (input_dir output_dir : option string).
Context (output_format : string).
Context (output_suffix error_suffix : string).
(** [os.path.relpath] and [os.path.join] *)
Context (relpath : string -> string -> string).
Context (join : string -> string -> string).
(** [template.format] with keyword arguments *)
Context (format : string -> list (string * string) -> fmt_result).
(** The file system *)
Context (env : os_env).

Definition str_truthy (o : option string) : option string :=
  match o with Some s => if String.eqb s "" then None else Some s | None => None end.

(** [if self.input_dir and self.output_dir: ... else: ...] *)
Definition artifact_path (input_path suffix : string) : string :=
  match str_truthy input_dir, str_truthy output_dir with
  | Some idir, Some odir => join odir (relpath input_path idir ++ suffix)%string
  | _, _ => (input_path ++ suffix)%string
  end.

Definition output_file (input_path : string) : string := artifact_path input_path output_suffix.
Definition error_file (input_path : string) : string := artifact_path input_path error_suffix.

Definition formatted_content (metadata : option Metadata) (content : string) : outcome string :=
  let datetime_value :=
    match metadata with
    | Some md => match datetime md with Some dt => render_datetime dt | None => "Unknown" end
    | None => "Unknown" end in
  let location_value :=
    match metadata with
    | Some md => match str_truthy (location_str md) with Some l => l | None => "Unknown" end
    | None => "Unknown" end in
  let filename_value :=
    match metadata with
    | Some md => match str_truthy (filename md) with Some f => f | None => "" end
    | None => "" end in
  match format output_format [("datetime", datetime_value); ("location", location_value);
                              ("content", content); ("filename", filename_value)] with
  | FOk s => Ret s
  | FOtherError e => Raise e
  | FKeyError =>
      match format output_format [("content", content)] with
      | FOk s => Ret s
      | FOtherError e => Raise e
      | FKeyError => Ret content
      end
  end.

(** [os.makedirs(d, exist_ok=True)]: [os.mkdir('')] raises
    [FileNotFoundError] for the empty name; otherwise what the file system
    answers. *)
Definition makedirs (files : fs) (d : string) : option pyval :=
  if String.eqb d "" then Some (PExc "FileNotFoundError") else makedirs_error env files d.

(** [if len(item) == 2: ... else: ...] *)
Definition unpack (it : item) : string * payload * option Metadata :=
  match it with
  | Item2 p c => (p, c, None)
  | Item3 p c md => (p, c, md)
  end.

(** [WriteTask.execute]. Both branches re-raise what their [try] raises
    (after printing it); a failing [os.remove] of the error artifact is
    ignored. Directories are not files of the tree, and [open(path, "w")]
    either raises before the file is created or the whole text is written. *)
Definition execute (files : fs) (it : item) : outcome string * fs :=
  let '(input_path, content_or_error, metadata) := unpack it in
  let of := output_file input_path in
  let ef := error_file input_path in
  match content_or_error with
  | PError msg =>
      match makedirs files (PathOps.dirname ef) with
      | Some e => (Raise e, files)
      | None =>
          match open_error env files ef with
          | Some e => (Raise e, files)
          | None => (Ret ef, <[ef := (msg ++ String (Ascii.ascii_of_nat 10) EmptyString)%string]> files)
          end
      end
  | PContent content =>
      match makedirs files (PathOps.dirname of) with
      | Some e => (Raise e, files)
      | None =>
          match formatted_content metadata content with
          | Raise e => (Raise e, files)
          | Ret text =>
              match open_error env files of with
              | Some e => (Raise e, files)
              | None =>
                  let files' := <[of := text]> files in
                  let files'' :=
                    if decide (is_Some (files' !! ef)) then
                      match remove_error env files' ef with
                      | Some _ => files'
                      | None => delete ef files'
                      end
                    else files' in
                  (Ret of, files'')
              end
          end
      end
  end.

End WriteTask.
End Write.

(* ===================================================================== *)
(** ** Concrete inputs used by the properties *)
(* ===================================================================== *)

Module Inputs.
Import Worker.

(** [os.sep] on POSIX: the character "/" (code 47). *)
Definition posix_sep : Ascii.ascii := Ascii.Ascii true true true true false true false false.

(** [task.execute(item)] of the skip-check stage on a path: [(False, path)]. *)
Definition skip_check_execute (item : pyval) : outcome pyval := Ret (PTuple [PBool false; item]).

(** [check_rejection = lambda result: result[0]] *)
Definition first_field (result : pyval) : outcome pyval :=
  match result with
  | PTuple (x :: _) => Ret x
  | _ => Raise (PExc "IndexError")
  end.

(** A [transform] that raises. *)
Definition raising_transform (_ : pyval) : outcome pyval := Raise (PExc "transform failed").

(** A context run: the target and one candidate have descriptions, a
    second candidate has none. *)
Definition ctx_read (p : string) : option string :=
  if String.eqb p "t.jpg" then Some "desc t"
  else if String.eqb p "c1.jpg" then Some "desc 1"
  else None.

Definition ctx_meta (_ : string) : Context.Metadata :=
  Context.mkMeta (Some 0) (Some 0) (Some 0).

Definition ctx_normpath (p : string) : string := p.

Definition ctx_collect (_ : string) : list string := ["c1.jpg"; "c2.jpg"].

(** Timestamps in seconds: a target with an exact EXIF time (day 2, 00:00:10),
    a date-only candidate for day 1, an exact candidate 20 s after the target,
    and a date-only target for day 1 with an exact candidate at its noon. *)
Definition target_exact : Context.Metadata := Context.mkMeta (Some 86410) (Some 86410) (Some 86410).
Definition cand_day1 : Context.Metadata := Context.mkMeta (Some 0) (Some 0) (Some 86399).
Definition cand_exact_20s : Context.Metadata := Context.mkMeta (Some 86430) (Some 86430) (Some 86430).
Definition target_day1 : Context.Metadata := Context.mkMeta (Some 0) (Some 0) (Some 86399).
Definition cand_noon : Context.Metadata := Context.mkMeta (Some 43200) (Some 43200) (Some 43200).

(** A write run: input and output directories set, a template that
    formats, and an error artifact left by an earlier run. *)
Definition w_join (a b : string) : string := (a ++ "/" ++ b)%string.
Definition w_relpath (p _ : string) : string := p.
Definition w_format (_ : string) (_ : list (string * string)) : Write.fmt_result := Write.FOk "formatted".
Definition w_files : Write.fs := <["/out/a.jpg.error.txt" := "timeout"]> (∅ : gmap string string).

(** A file system on which every operation succeeds, and one that refuses
    to remove files. *)
Definition os_ok : Write.os_env := Write.mkOS (fun _ _ => None) (fun _ _ => None) (fun _ _ => None).
Definition os_remove_denied : Write.os_env :=
  Write.mkOS (fun _ _ => None) (fun _ _ => None) (fun _ _ => Some (PExc "PermissionError")).

End Inputs.

(* ===================================================================== *)
(** ** TaskStats.format and the stats of a run *)
(* ===================================================================== *)

Module StatsFmt.
Import Stats.

(** [TaskStats.reset]: the counters, not [diff_input_output]. *)
Definition reset (s : TaskStats) : TaskStats :=
  mkStats (diff_input_output s) 0 0 0 0 0.

(** [str(n)] for a natural number: decimal digits, most significant first. *)
Fixpoint str_of_N_aux (fuel : nat) (n : N) (acc : string) : string :=
  match fuel with
  | O => acc
  | S fuel' =>
      let acc' := String (Ascii.ascii_of_N (48 + N.modulo n 10)) acc in
      if N.eqb (N.div n 10) 0 then acc' else str_of_N_aux fuel' (N.div n 10) acc'
  end.

Definition str_of_N (n : N) : string := str_of_N_aux (S (N.size_nat n)) n EmptyString.

(** [f"{n}"] for a Python int. *)
Definition str_of_Z (z : Z) : string :=
  if Z.ltb z 0 then ("-" ++ str_of_N (Z.abs_N z))%string else str_of_N (Z.to_N z).

(** [TaskStats.format] *)
Definition format (s : TaskStats) : string :=
  let fmt := if diff_input_output s then (str_of_Z (input s) ++ ">")%string else "" in
  let fmt := if Z.ltb 0 (failed s) then (fmt ++ str_of_Z (failed s) ++ "F")%string else fmt in
  let fmt := if Z.ltb 0 (rejected s) then (fmt ++ str_of_Z (rejected s) ++ "R")%string else fmt in
  (fmt ++ str_of_Z (output s) ++ "D")%string.

(** The calls a [TaskStats] receives: the recording calls and, for the
    [recent] stats, [reset] from [Task.reset_recent]. *)
Inductive rcall := RCall (c : call) | RReset.

Definition apply_rcall (s : TaskStats) (r : rcall) : TaskStats :=
  match r with RCall c => apply_call s c | RReset => reset s end.

Definition rrun (s : TaskStats) (rs : list rcall) : TaskStats := fold_left apply_rcall rs s.

(** A [finish(n)] with [n != 1] among the calls. *)
Definition uneven_finish (r : rcall) : bool :=
  match r with RCall (CFinish n) => negb (Z.eqb n 1) | _ => false end.

Definition finish_count (c : call) : Z := match c with CFinish n => n | _ => 0 end.
Definition is_finish (c : call) : bool := match c with CFinish _ => true | _ => false end.
Definition is_fail (c : call) : bool := match c with CFail => true | _ => false end.
Definition is_reject (c : call) : bool := match c with CReject => true | _ => false end.

End StatsFmt.

(* ===================================================================== *)
(** ** A run of Task queue operations *)
(* ===================================================================== *)

Module TaskRun.
Import TaskQ.
Section TaskRun.
Context {A : Type} `{EqDecision A}.

(** Run a sequence of operations on one task, collecting the items
    [start_next] returns. *)
Fixpoint exec (t : @Task A) (os : list (@op A)) : @Task A * list A :=
  match os with
  | [] => (t, [])
  | OStartNext nt m :: os' =>
      let '(r, t') := start_next t nt m in
      let '(t'', outs) := exec t' os' in
      (t'', match r with Some x => x :: outs | None => outs end)
  | o :: os' => exec (step t o) os'
  end.

(** The items [add]ed by a sequence of operations. *)
Definition added (os : list (@op A)) : list A :=
  flat_map (fun o => match o with OAdd x => [x] | _ => [] end) os.

End TaskRun.
End TaskRun.

(* ===================================================================== *)
(** ** A run of DiscoverTask operations *)
(* ===================================================================== *)

Module DiscoverRun.
Import Discover.
(** The items [add]ed by a sequence of operations. *)
Definition added (os : list op) : list string :=
  flat_map (fun o => match o with DAdd x => [x] | _ => [] end) os.
End DiscoverRun.

(* ===================================================================== *)
(** ** DiscoverTask.execute *)
(* ===================================================================== *)

Module DiscoverExec.
Import Worker.

(** A [string] holds Unicode code points 0-255 (Latin-1): decimal digits
    for [\d] and [int], the digits [str.isdigit] accepts, and the capitals
    [str.lower] maps, all as Python has them on that range. *)
Definition is_digit (c : ascii) : bool :=
  Nat.leb 48 (nat_of_ascii c) && Nat.leb (nat_of_ascii c) 57.

(** [c.isdigit()]: ASCII digits and the superscripts two, three and one. *)
Definition py_isdigit_char (c : ascii) : bool :=
  is_digit c || Nat.eqb (nat_of_ascii c) 178 || Nat.eqb (nat_of_ascii c) 179
  || Nat.eqb (nat_of_ascii c) 185.

(** [str.lower] on one character. *)
Definition lower_char (c : ascii) : ascii :=
  let n := nat_of_ascii c in
  if (Nat.leb 65 n && Nat.leb n 90) || (Nat.leb 192 n && Nat.leb n 222 && negb (Nat.eqb n 215))
  then ascii_of_nat (n + 32) else c.

Fixpoint lower (s : string) : string :=
  match s with
  | EmptyString => EmptyString
  | String c s' => String (lower_char c) (lower s')
  end.

(** [s.endswith(suffix)] *)
Definition endswith (suffix s : string) : bool :=
  Nat.leb (String.length suffix) (String.length s)
  && String.eqb (String.substring (String.length s - String.length suffix) (String.length suffix) s) suffix.

(** [re.split(r'(\d+)', s)]: the non-digit runs and the digit runs,
    alternating, from a (possibly empty) non-digit run to another. *)
Fixpoint split_digits (l : list ascii) : list (list ascii) :=
  match l with
  | [] => [[]]
  | c :: l' =>
      match split_digits l' with
      | [] => [[]]
      | first :: rest =>
          if is_digit c then
            match first, rest with
            | [], d :: rest' => [] :: (c :: d) :: rest'
            | _, _ => [] :: [c] :: first :: rest
            end
          else (c :: first) :: rest
      end
  end.

(** The items of a natural sort key: [int(t)] or [t.lower()]. *)
Inductive keyelt := KInt (z : Z) | KStr (s : string).

(** [t.isdigit()] *)
Definition isdigit (t : list ascii) : bool := negb (Nat.eqb (length t) 0) && forallb py_isdigit_char t.

Definition value_error_int : pyval := PExc "ValueError: invalid literal for int() with base 10".

(** [int(t)] for a string [t.isdigit()] accepts: only decimal digits parse. *)
Definition int_of_digits (t : list ascii) : outcome Z :=
  if forallb is_digit t
  then Ret (fold_left (fun acc c => acc * 10 + Z.of_nat (nat_of_ascii c - 48)) t 0)
  else Raise value_error_int.

(** A list comprehension: the items in order, the first exception stops it. *)
Fixpoint map_outcome {X Y} (f : X -> outcome Y) (l : list X) : outcome (list Y) :=
  match l with
  | [] => Ret []
  | x :: l' =>
      match f x with
      | Raise e => Raise e
      | Ret y => match map_outcome f l' with
                 | Raise e => Raise e
                 | Ret r => Ret (y :: r)
                 end
      end
  end.

(** [_natural_key] *)
Definition natural_key (s : string) : outcome (list keyelt) :=
  map_outcome (fun t => if isdigit t
                        then match int_of_digits t with
                             | Ret z => Ret (KInt z)
                             | Raise e => Raise e
                             end
                        else Ret (KStr (lower (String.string_of_list_ascii t))))
              (split_digits (String.list_ascii_of_string s)).

(** [str] [<]: code points, lexicographically. *)
Fixpoint str_lt (a b : string) : bool :=
  match a, b with
  | EmptyString, EmptyString => false
  | EmptyString, String _ _ => true
  | String _ _, EmptyString => false
  | String x a', String y b' =>
      if Ascii.eqb x y then str_lt a' b' else Nat.ltb (nat_of_ascii x) (nat_of_ascii y)
  end.

(** [==] and [<] on the items of a key; [<] between an [int] and a [str]
    raises [TypeError]. *)
Definition keyelt_eqb (x y : keyelt) : bool :=
  match x, y with
  | KInt a, KInt b => Z.eqb a b
  | KStr a, KStr b => String.eqb a b
  | _, _ => false
  end.

Definition type_error_lt : pyval := PExc "TypeError: '<' not supported between instances of 'int' and 'str'".

Definition keyelt_lt (x y : keyelt) : outcome bool :=
  match x, y with
  | KInt a, KInt b => Ret (Z.ltb a b)
  | KStr a, KStr b => Ret (str_lt a b)
  | KInt _, KStr _ | KStr _, KInt _ => Raise type_error_lt
  end.

(** [list] [<]: the first position where the items differ decides, with
    the item [<]; otherwise the shorter list is smaller. *)
Fixpoint list_lt (x y : list keyelt) : outcome bool :=
  match x, y with
  | [], [] => Ret false
  | [], _ :: _ => Ret true
  | _ :: _, [] => Ret false
  | a :: x', b :: y' => if keyelt_eqb a b then list_lt x' y' else keyelt_lt a b
  end.

(** The values [key_fn] returns: a natural key or a lowered string. *)
Inductive sortkey := NatKey (k : list keyelt) | StrKey (s : string).

Definition sortkey_lt (a b : sortkey) : outcome bool :=
  match a, b with
  | NatKey x, NatKey y => list_lt x y
  | StrKey x, StrKey y => Ret (str_lt x y)
  | _, _ => Raise type_error_lt
  end.

Section Sort.
Context {X : Type} (lt : X -> X -> outcome bool).

(** A stable sort by [<] (on the keys): each element goes before the
    first one it is smaller than. *)
Fixpoint insert_sorted (x : X) (l : list X) : outcome (list X) :=
  match l with
  | [] => Ret [x]
  | y :: l' =>
      match lt x y with
      | Raise e => Raise e
      | Ret true => Ret (x :: l)
      | Ret false =>
          match insert_sorted x l' with
          | Raise e => Raise e
          | Ret r => Ret (y :: r)
          end
      end
  end.

Fixpoint sort_aux (acc l : list X) : outcome (list X) :=
  match l with
  | [] => Ret acc
  | x :: l' =>
      match insert_sorted x acc with
      | Raise e => Raise e
      | Ret acc' => sort_aux acc' l'
      end
  end.

(** [sorted(l, key=..., reverse=rev)]: with [reverse], CPython reverses
    the list, sorts it stably and reverses the result. *)
Definition py_sorted (rev : bool) (l : list X) : outcome (list X) :=
  if rev then
    match sort_aux [] (List.rev l) with
    | Ret r => Ret (List.rev r)
    | Raise e => Raise e
    end
  else sort_aux [] l.

End Sort.

(** [R] holds between each element and the next. *)
Fixpoint sorted_by {X} (R : X -> X -> Prop) (l : list X) : Prop :=
  match l with
  | a :: ((b :: _) as l') => R a b /\ sorted_by R l'
  | _ => True
  end.

(** What [sorted] guarantees: no element is smaller than the one before it
    (larger, with [reverse]). *)
Definition in_order {X} (lt : X -> X -> outcome bool) (rev : bool) (l : list X) : Prop :=
  sorted_by (fun a b => if rev then lt a b = Ret false else lt b a = Ret false) l.

(** [sorted(l, key=key, reverse=rev)]: CPython computes every key first, in
    order, then sorts the elements by their keys. *)
Definition py_sorted_key {X K} (key : X -> outcome K) (lt : K -> K -> outcome bool)
    (rev : bool) (l : list X) : outcome (list X) :=
  match map_outcome (fun x => match key x with Ret k => Ret (k, x) | Raise e => Raise e end) l with
  | Raise e => Raise e
  | Ret kl =>
      match py_sorted (fun a b : K * X => lt (fst a) (fst b)) rev kl with
      | Raise e => Raise e
      | Ret r => Ret (map snd r)
      end
  end.

(** The order [sorted] leaves the elements in, through their keys. *)
Definition in_key_order {X K} (key : X -> outcome K) (lt : K -> K -> outcome bool)
    (rev : bool) (l : list X) : Prop :=
  sorted_by (fun a b => match key a, key b with
                        | Ret ka, Ret kb => if rev then lt ka kb = Ret false else lt kb ka = Ret false
                        | _, _ => False
                        end) l.

Section Execute.
(** [os.path.join], [os.path.isdir], [os.path.isfile], [os.listdir]. *)
Context (join : string -> string -> string).
Context (isdir isfile : string -> bool).
Context (listdir : string -> outcome (list string)).
Context (image_extensions : list string).
Context (sort_order : string).

(** [key_fn]: [_natural_key] or [lambda s: s.lower()]. *)
Definition key_fn (natural : bool) (s : string) : outcome sortkey :=
  if natural then match natural_key s with
                  | Ret k => Ret (NatKey k)
                  | Raise e => Raise e
                  end
  else Ret (StrKey (lower s)).

(** [os.path.splitext(file)[1].lower()] *)
Definition ext_of (file : string) : string := lower (snd (PathOps.splitext file)).

(** [DiscoverTask.execute]; the error messages it prints are not modelled. *)
Definition execute (directory_path : string) : outcome pyval :=
  if negb (isdir directory_path) then Ret (PList [])
  else
    match listdir directory_path with
    | Raise _ => Ret (PList [])
    | Ret entries =>
        let files := List.filter (fun e => isfile (join directory_path e)) entries in
        let dirs := map (join directory_path)
                      (List.filter (fun e => negb (isfile (join directory_path e))
                                             && isdir (join directory_path e)) entries) in
        let natural := String.prefix "natural" sort_order in
        let rev := endswith "desc" sort_order in
        match py_sorted_key (key_fn natural) sortkey_lt rev files with
        | Raise e => Raise e
        | Ret files' =>
            match py_sorted_key (key_fn natural) sortkey_lt rev dirs with
            | Raise e => Raise e
            | Ret dirs' =>
                let discovered :=
                  map (join directory_path)
                      (List.filter (fun f => existsb (String.eqb (ext_of f)) image_extensions) files') in
                Ret (PTuple [PList (map PStr discovered); PList (map PStr dirs')])
            end
        end
    end.

(** The stage's [execute] on the values the worker passes it. *)
Definition execute_item (item : pyval) : outcome pyval :=
  match item with
  | PStr d => execute d
  | _ => Raise (PExc "TypeError")   (* not reached: the queue holds paths *)
  end.

End Execute.
(** The shape of the keys [_natural_key] builds. *)
Definition digit_run (t : list ascii) : bool := negb (Nat.eqb (length t) 0) && forallb is_digit t.

(** The runs of [split_digits] alternate: non-digit runs at even
    positions, non-empty digit runs at odd ones. *)
Fixpoint chunks_ok (b : bool) (cs : list (list ascii)) : Prop :=
  match cs with
  | [] => True
  | t :: cs' => (if b then forallb (fun c => negb (is_digit c)) t = true else digit_run t = true)
                /\ chunks_ok (negb b) cs'
  end.

Fixpoint key_alt (b : bool) (k : list keyelt) : Prop :=
  match k with
  | [] => True
  | KStr _ :: k' => b = true /\ key_alt false k'
  | KInt _ :: k' => b = false /\ key_alt true k'
  end.

End DiscoverExec.

(* ===================================================================== *)
(** ** SkipCheckTask.execute *)
(* ===================================================================== *)

Module SkipCheck.
Import Worker.

Fixpoint list_prefixb (p s : list ascii) : bool :=
  match p, s with
  | [], _ => true
  | a :: p', b :: s' => Ascii.eqb a b && list_prefixb p' s'
  | _ :: _, [] => false
  end.

Fixpoint replace_aux (fuel : nat) (old new s : list ascii) : list ascii :=
  match fuel with
  | O => s
  | S fuel' =>
      match s with
      | [] => []
      | c :: s' =>
          if list_prefixb old s
          then new ++ replace_aux fuel' old new (skipn (length old) s)
          else c :: replace_aux fuel' old new s'
      end
  end.

(** [s.replace(old, new)]: every non-overlapping occurrence, left to right;
    an empty [old] inserts [new] around every character. *)
Definition py_replace (old new s : string) : string :=
  let o := String.list_ascii_of_string old in
  let n := String.list_ascii_of_string new in
  let l := String.list_ascii_of_string s in
  String.string_of_list_ascii
    (match o with
     | [] => n ++ flat_map (fun c => c :: n) l
     | _ => replace_aux (length l) o n l
     end).

Section SkipCheckTask.

Context (input_dir output_dir : option string).
Context (skip_all retry_failed : bool).
Context (output_suffix : string).
Context (check_input_exists : bool).
(** [os.path.relpath] (on POSIX it raises only on an empty path) and [os.path.join] *)
Context (relpath join : string -> string -> string).
(** [os.path.exists] *)
Context (exists_ : string -> bool).

(** [if self.input_dir and self.output_dir: ... else: ...] *)
Definition file_for (input_path suffix : string) : string :=
  match Write.str_truthy input_dir, Write.str_truthy output_dir with
  | Some idir, Some odir => join odir (relpath input_path idir ++ suffix)%string
  | _, _ => (input_path ++ suffix)%string
  end.

Definition error_suffix : string := py_replace ".txt" ".error.txt" output_suffix.

(** [SkipCheckTask.execute] on a path: [(should_skip, input_path)]. *)
Definition execute (input_path : string) : bool * string :=
  if skip_all then (false, input_path)
  else if check_input_exists then
    if negb (exists_ (file_for input_path ".txt")) then (true, input_path)
    else if exists_ (file_for input_path output_suffix) then (true, input_path)
    else if negb retry_failed && exists_ (file_for input_path error_suffix) then (true, input_path)
    else (false, input_path)
  else
    if exists_ (file_for input_path output_suffix) then (true, input_path)
    else if negb retry_failed && exists_ (file_for input_path error_suffix) then (true, input_path)
    else (false, input_path).

(** On the values the worker passes: a non-string item makes [relpath] or
    [input_path + suffix] raise a [TypeError] inside the [try]. The handler
    then evaluates [self.input_dir and input_path.startswith(...)]: with a
    non-empty [input_dir] the [startswith] raises [AttributeError], which
    escapes; otherwise it returns [(False, input_path)]. *)
Definition execute_item (item : pyval) : outcome pyval :=
  if skip_all then Ret (PTuple [PBool false; item])
  else match item with
       | PStr p => let '(b, p') := execute p in Ret (PTuple [PBool b; PStr p'])
       | _ => match Write.str_truthy input_dir with
              | Some _ => Raise (PExc "AttributeError")
              | None => Ret (PTuple [PBool false; item])
              end
       end.

End SkipCheckTask.

(** [os.path.exists] on the output tree. *)
Definition exists_in (files : Write.fs) (path : string) : bool := bool_decide (is_Some (files !! path)).

(** [transform = lambda result: result[1]] *)
Definition second_field (result : pyval) : outcome pyval :=
  match result with
  | PTuple (_ :: x :: _) => Ret x
  | _ => Raise (PExc "IndexError")
  end.

End SkipCheck.

(* ===================================================================== *)
(** ** ContextTask._read_description over the output tree *)
(* ===================================================================== *)

Module ContextRead.

(** [str.isspace] on the code points 0-255 a [string] holds here. *)
Definition is_py_space (c : ascii) : bool :=
  let n := Ascii.nat_of_ascii c in
  ((9 <=? n) && (n <=? 13))%nat || ((28 <=? n) && (n <=? 32))%nat
  || (n =? 133)%nat || (n =? 160)%nat.

Fixpoint lstrip (l : list ascii) : list ascii :=
  match l with
  | c :: l' => if is_py_space c then lstrip l' else l
  | [] => []
  end.

(** [str.strip()] *)
Definition py_strip (s : string) : string :=
  String.string_of_list_ascii
    (List.rev (lstrip (List.rev (lstrip (String.list_ascii_of_string s))))).

Definition CR : ascii := Ascii.ascii_of_nat 13.
Definition LF : ascii := Ascii.ascii_of_nat 10.

Fixpoint newlines_aux (l : list ascii) : list ascii :=
  match l with
  | c :: ((d :: l'') as l') =>
      if Ascii.eqb c CR then
        if Ascii.eqb d LF then LF :: newlines_aux l'' else LF :: newlines_aux l'
      else c :: newlines_aux l'
  | [c] => if Ascii.eqb c CR then [LF] else [c]
  | [] => []
  end.

(** Text-mode reading ([newline=None]): "\r\n" and "\r" become "\n". *)
Definition universal_newlines (s : string) : string :=
  String.string_of_list_ascii (newlines_aux (String.list_ascii_of_string s)).

Section Read.
Context (input_dir output_dir : option string).
Context (relpath join : string -> string -> string).

(** [ContextTask._read_description(image_path, use_original)]: both
    branches of [use_original] name the same ".txt" file. *)
Definition read_description (files : Write.fs) (image_path : string) (use_original : bool)
    : option string :=
  let desc_file :=
    match Write.str_truthy input_dir, Write.str_truthy output_dir with
    | Some idir, Some odir =>
        if use_original then join odir (relpath image_path idir ++ ".txt")%string
        else join odir (relpath image_path idir ++ ".txt")%string
    | _, _ => (image_path ++ ".txt")%string
    end in
  match files !! desc_file with
  | None => None
  | Some content => Some (py_strip (universal_newlines content))
  end.

End Read.
End ContextRead.

(* ===================================================================== *)
(** ** Worker events *)
(* ===================================================================== *)

Module WorkerEvents.
Import Worker.

(** Every event but a rejection. *)
Definition not_reject (ev : event) : bool := match ev with EReject _ => false | _ => true end.
End WorkerEvents.

(* ===================================================================== *)
(** ** Concrete directory trees and stage inputs *)
(* ===================================================================== *)

Module Samples.
Import Worker.

(** The one-character string "²" (code point 178): [str.isdigit] accepts
    it, [int] rejects it. *)
Definition sup2 : string := String (Ascii.ascii_of_nat 178) EmptyString.

(** "/in" holds an image, a text file and a subdirectory; "/bad" holds a
    file whose name ends in "²"; "/gone" is a directory that cannot be
    listed. *)
Definition d_isdir (p : string) : bool :=
  String.eqb p "/in" || String.eqb p "/in/sub" || String.eqb p "/bad" || String.eqb p "/gone".
Definition d_isfile (p : string) : bool :=
  String.eqb p "/in/b.jpg" || String.eqb p "/in/a.txt" || String.eqb p ("/bad/photo1" ++ sup2)%string.
Definition d_listdir (p : string) : outcome (list string) :=
  if String.eqb p "/in" then Ret ["b.jpg"; "sub"; "a.txt"]
  else if String.eqb p "/bad" then Ret [("photo1" ++ sup2)%string]
  else Raise (PExc "PermissionError").
Definition d_exts : list string := [".jpg"; ".jpeg"; ".png"; ".webp"].

(** A stage whose result is a list of two paths. *)
Definition two_paths (_ : pyval) : outcome pyval := Ret (PList [PStr "x.jpg"; PStr "y.jpg"]).

(** The skip-check result [(True, path)]. *)
Definition skip_true (item : pyval) : outcome pyval := Ret (PTuple [PBool true; item]).

Definition fmt_key_error (_ : string) (_ : list (string * string)) : Write.fmt_result := Write.FKeyError.
Definition fmt_blank (_ : string) (_ : list (string * string)) : Write.fmt_result :=
  Write.FOk (String " "%char (String (Ascii.ascii_of_nat 10) EmptyString)).

End Samples.


(* ===================================================================== *)
(** * Properties *)
(* ===================================================================== *)

Module StatsFacts.
Import Stats.

Lemma apply_call_balanced (s : TaskStats) (c : call) :
  balanced s -> balanced (apply_call s c).
Proof. unfold balanced; destruct c; simpl; lia. Qed.

Lemma run_balanced (cs : list call) : forall s, balanced s -> balanced (run s cs).
Proof.
  induction cs as [|c cs IH]; intros s Hs; simpl; [exact Hs|].
  apply IH, apply_call_balanced, Hs.
Qed.

(** C1: starting from [TaskStats()] (all counters zero), after any finite
    sequence of [finish(n)], [fail()] and [reject()] calls,
    [input = done + failed + rejected]. *)
Theorem stats_invariant (cs : list call) :
  input (run init cs) = done (run init cs) + failed (run init cs) + rejected (run init cs).
Proof. apply (run_balanced cs init). unfold balanced; simpl; reflexivity. Qed.

End StatsFacts.

Module TaskQFacts.
Import TaskQ.

Section Capacity.
Context {A : Type} `{EqDecision A}.

Lemma remove_first_length (x : A) (l : list A) :
  (length (remove_first x l) <= length l)%nat.
Proof.
  induction l as [|y l IH]; simpl; [lia|].
  destruct (decide (x = y)); simpl; lia.
Qed.

Lemma drop_active_length (t : @Task A) (x : A) :
  (length (drop_active t x) <= length (active t))%nat.
Proof. unfold drop_active. destruct (decide _); [apply remove_first_length | lia]. Qed.

Lemma start_next_full (t : @Task A) nt m :
  maximum t <= Z.of_nat (length (active t)) -> start_next t nt m = (None, t).
Proof. intros H. unfold start_next. apply Z.leb_le in H. rewrite H. reflexivity. Qed.

Lemma step_maximum (t : @Task A) o : maximum (step t o) = maximum t.
Proof.
  destruct o as [x|nt m|x n|x|x]; simpl; try reflexivity.
  unfold start_next. destruct (Z.leb _ _); [reflexivity|].
  destruct (queue t); [reflexivity|]. destruct nt; [destruct (downstream_full _ _)|]; reflexivity.
Qed.

Lemma step_active_le (t : @Task A) o :
  Z.of_nat (length (active t)) <= maximum t ->
  Z.of_nat (length (active (step t o))) <= maximum (step t o).
Proof.
  intros H. rewrite step_maximum.
  destruct o as [x|nt m|x n|x|x]; simpl.
  - exact H.
  - unfold start_next. destruct (Z.leb (maximum t) _) eqn:Hle; [exact H|].
    apply Z.leb_gt in Hle.
    destruct (queue t) as [|y rest]; [exact H|].
    destruct nt as [nt|]; [destruct (downstream_full nt m); [exact H|]|];
      simpl; rewrite length_app; simpl; lia.
  - pose proof (drop_active_length t x); lia.
  - pose proof (drop_active_length t x); lia.
  - pose proof (drop_active_length t x); lia.
Qed.

Lemma run_active_le (os : list (@op A)) : forall t,
  Z.of_nat (length (active t)) <= maximum t ->
  Z.of_nat (length (active (run t os))) <= maximum (run t os).
Proof.
  induction os as [|o os IH]; intros t H; simpl; [exact H|].
  apply IH, step_active_le, H.
Qed.

Lemma run_maximum (os : list (@op A)) : forall t, maximum (run t os) = maximum t.
Proof.
  induction os as [|o os IH]; intros t; simpl; [reflexivity|].
  rewrite IH. apply step_maximum.
Qed.

Lemma step_active_not_start (t : @Task A) o :
  (forall nt m, o <> OStartNext nt m) ->
  (length (active (step t o)) <= length (active t))%nat.
Proof.
  intros Hno. destruct o as [x|nt m|x n|x|x]; simpl.
  - lia.
  - exfalso. exact (Hno nt m eq_refl).
  - apply drop_active_length.
  - apply drop_active_length.
  - apply drop_active_length.
Qed.

End Capacity.

(** C2: from the empty task with a (non-negative) [maximum], every
    interleaving of [add], [start_next], [finish], [fail] and [reject]
    keeps [|active| <= maximum]; [start_next] returns [None] and leaves the
    task unchanged whenever [|active| >= maximum]; and no other operation
    makes [active] longer. *)
Theorem capacity_invariant {A : Type} `{EqDecision A} (maximum0 : Z) (os : list (@op A))
    (Hmax : 0 <= maximum0) :
  Z.of_nat (length (active (run (new_task maximum0) os))) <= maximum0
  /\ (forall (t : @Task A) nt m,
        maximum t <= Z.of_nat (length (active t)) -> start_next t nt m = (None, t))
  /\ (forall (t : @Task A) o, (forall nt m, o <> OStartNext nt m) ->
        (length (active (step t o)) <= length (active t))%nat).
Proof.
  split; [|split].
  - pose proof (run_active_le os (new_task maximum0)) as H.
    rewrite run_maximum in H. apply H. simpl. exact Hmax.
  - intros t nt m. apply start_next_full.
  - intros t o. apply step_active_not_start.
Qed.

Lemma capacity_invariant_witness :
  0 <= 2 /\
  Z.of_nat (length (active (run (new_task 2) [OAdd 1%Z; OAdd 2%Z; OAdd 3%Z;
      OStartNext None 2%Q; OStartNext None 2%Q; OStartNext None 2%Q]))) <= 2.
Proof.
  split; [lia|].
  apply (proj1 (capacity_invariant 2 [OAdd 1%Z; OAdd 2%Z; OAdd 3%Z;
      OStartNext None 2%Q; OStartNext None 2%Q; OStartNext None 2%Q] ltac:(lia))).
Defined.

(** C3: with a downstream task of [maximum = 2] and
    [backpressure_multiplier = 2.0], [start_next] returns [None] whenever the
    downstream queue holds 4 or more items, whatever the upstream's queue and
    active list; with exactly 3 items downstream, an upstream with spare
    capacity and a queued item starts (and returns) its first queued item. *)
Theorem backpressure_threshold {A : Type} `{EqDecision A} (up down : @Task A)
    (Hdown : maximum down = 2) :
  ((4 <= length (queue down))%nat -> fst (start_next up (Some down) 2%Q) = None)
  /\ (length (queue down) = 3%nat ->
      Z.of_nat (length (active up)) < maximum up ->
      forall x rest, queue up = x :: rest ->
      fst (start_next up (Some down) 2%Q) = Some x).
Proof.
  unfold start_next, downstream_full. rewrite Hdown. split.
  - intros H4. destruct (Z.leb _ _); [reflexivity|].
    destruct (queue up); [reflexivity|].
    replace (Qle_bool _ _) with true; [reflexivity|].
    symmetry. apply Qle_bool_iff. unfold Qle; simpl. lia.
  - intros H3 Hcap x rest Hq.
    replace (Z.leb (maximum up) _) with false by (symmetry; apply Z.leb_gt; lia).
    rewrite Hq. rewrite H3. reflexivity.
Qed.

Lemma backpressure_threshold_witness :
  fst (start_next (mkTask [1%Z] [] 1 Stats.init Stats.init)
         (Some (mkTask [5; 6; 7; 8] [] 2 Stats.init Stats.init)) 2%Q) = None
  /\ fst (start_next (mkTask [1%Z] [] 1 Stats.init Stats.init)
         (Some (mkTask [5; 6; 7] [] 2 Stats.init Stats.init)) 2%Q) = Some 1%Z.
Proof.
  split.
  - apply (proj1 (backpressure_threshold (mkTask [1%Z] [] 1 Stats.init Stats.init)
                    (mkTask [5; 6; 7; 8] [] 2 Stats.init Stats.init) eq_refl)).
    simpl; lia.
  - apply (proj2 (backpressure_threshold (mkTask [1%Z] [] 1 Stats.init Stats.init)
                    (mkTask [5; 6; 7] [] 2 Stats.init Stats.init) eq_refl)
             eq_refl ltac:(simpl; lia) 1%Z [] eq_refl).
Defined.

End TaskQFacts.

Module DiscoverFacts.
Import Discover Inputs.

Lemma entry_lt_spec (e1 e2 : entry) :
  entry_lt e1 e2 = true <->
  prio e1 < prio e2 \/ (prio e1 = prio e2 /\ seqno e1 < seqno e2).
Proof.
  unfold entry_lt. rewrite orb_true_iff, andb_true_iff, Z.ltb_lt, Z.eqb_eq, Z.ltb_lt.
  reflexivity.
Qed.

Lemma entry_lt_false (e1 e2 : entry) :
  entry_lt e1 e2 = false <->
  prio e2 < prio e1 \/ (prio e1 = prio e2 /\ seqno e2 <= seqno e1).
Proof.
  destruct (entry_lt e1 e2) eqn:E.
  - apply entry_lt_spec in E. split; [discriminate|lia].
  - split; [|reflexivity]. intros _.
    assert (~ (prio e1 < prio e2 \/ (prio e1 = prio e2 /\ seqno e1 < seqno e2))) as N.
    { rewrite <- entry_lt_spec, E. discriminate. }
    lia.
Qed.

(** [min_entry best l] is one of [best :: l] and no element is below it. *)
Lemma min_entry_spec (l : list entry) : forall best,
  (min_entry best l = best \/ In (min_entry best l) l) /\
  (forall e, In e (best :: l) -> entry_lt e (min_entry best l) = false).
Proof.
  induction l as [|x l IH]; intros best; simpl.
  - split; [left; reflexivity|]. intros e [<-|[]].
    apply entry_lt_false. lia.
  - destruct (IH (if entry_lt x best then x else best)) as [Hin Hmin].
    set (m := min_entry (if entry_lt x best then x else best) l) in *.
    split.
    + destruct (entry_lt x best); destruct Hin as [Hin|Hin]; auto.
    + assert (Hnb : entry_lt (if entry_lt x best then x else best) m = false)
        by (apply Hmin; left; reflexivity).
      intros e [<-|[<-|He]].
      * destruct (entry_lt x best) eqn:Exb; [|exact Hnb].
        apply entry_lt_spec in Exb. apply entry_lt_false in Hnb. apply entry_lt_false. lia.
      * destruct (entry_lt x best) eqn:Exb; [exact Hnb|].
        apply entry_lt_false in Exb. apply entry_lt_false in Hnb. apply entry_lt_false. lia.
      * apply Hmin. right. exact He.
Qed.

Lemma remove_entry_sub (x e : entry) (l : list entry) :
  In e (remove_entry x l) -> In e l.
Proof.
  induction l as [|y l IH]; simpl; [tauto|].
  destruct (decide (x = y)); simpl; tauto.
Qed.

Lemma remove_entry_keep (x e : entry) (l : list entry) :
  In e l -> e <> x -> In e (remove_entry x l).
Proof.
  induction l as [|y l IH]; simpl; [tauto|].
  intros [->|He] Hne.
  - destruct (decide (x = e)); [congruence|left; reflexivity].
  - destruct (decide (x = y)); [exact He|right; auto].
Qed.

Lemma heappop_spec (h h' : list entry) (m : entry) :
  heappop h = Some (m, h') ->
  In m h /\ (forall e, In e h -> entry_lt e m = false) /\
  (forall e, In e h' -> In e h) /\ (forall e, In e h -> e <> m -> In e h').
Proof.
  destruct h as [|e0 h]; [discriminate|].
  unfold heappop. intros Hp. injection Hp as <- <-.
  destruct (min_entry_spec h e0) as [Hin Hmin].
  split; [destruct Hin as [->|Hin]; [left|right]; auto|].
  split; [exact Hmin|].
  split.
  - intros e He. exact (remove_entry_sub (min_entry e0 h) e (e0 :: h) He).
  - intros e He Hne. exact (remove_entry_keep (min_entry e0 h) e (e0 :: h) He Hne).
Qed.

Lemma start_next_none t nt m t' :
  start_next t nt m = (None, t') -> t' = t.
Proof.
  unfold start_next.
  destruct (Z.leb _ _); [congruence|].
  destruct (decide _); [congruence|].
  destruct (match nt with Some _ => _ | None => _ end); [congruence|].
  destruct (heappop _) as [[e h']|]; congruence.
Qed.

Lemma start_next_some t nt m x t' :
  start_next t nt m = (Some x, t') ->
  exists e h', heappop (heap_queue t) = Some (e, h') /\ x = item_of e /\
    t' = mkDiscover h' (counter t) (active t ++ [x]) (maximum t).
Proof.
  unfold start_next.
  destruct (Z.leb _ _); [congruence|].
  destruct (decide _); [congruence|].
  destruct (match nt with Some _ => _ | None => _ end); [congruence|].
  destruct (heappop _) as [[e h']|]; [|congruence].
  intros Hs. injection Hs as <- <-. exists e, h'. auto.
Qed.

Lemma start_next_unblocked t m :
  Z.of_nat (length (active t)) < maximum t ->
  start_next t None m =
  match heappop (heap_queue t) with
  | Some (e, h') => (Some (item_of e), mkDiscover h' (counter t) (active t ++ [item_of e]) (maximum t))
  | None => (None, t)
  end.
Proof.
  intros H. unfold start_next.
  replace (Z.leb (maximum t) _) with false by (symmetry; apply Z.leb_gt; lia).
  destruct (decide (heap_queue t = [])) as [->|Hne]; [reflexivity|].
  reflexivity.
Qed.

Section Fifo.
Context (sep : Ascii.ascii) (X Y : string).
Hypothesis Hdepth : count_char sep X = count_char sep Y.

(** From a state holding [X]'s entry [(p, cx, X)], in which every entry of
    [Y] ranks after it, any run that returns [Y] returns [X] first. *)
Lemma fifo_from (os : list op) : forall t cx,
  In (- count_char sep X, cx, X) (heap_queue t) ->
  cx < counter t ->
  (forall e, In e (heap_queue t) -> item_of e = Y ->
             prio e = - count_char sep X /\ cx < seqno e) ->
  In Y (snd (exec sep t os)) ->
  exists o1 o2, snd (exec sep t os) = o1 ++ X :: o2 /\ ~ In Y o1.
Proof.
  induction os as [|o os IH]; intros t cx HX Hc HY Hin; simpl in Hin |- *; [destruct Hin|].
  destruct o as [z|nt m].
  - apply (IH (add sep t z) cx); [| simpl; lia | | exact Hin].
    + unfold add, heappush; simpl. apply in_or_app. left. exact HX.
    + unfold add, heappush; simpl. intros e He Hi.
      apply in_app_or in He as [He|[<-|[]]]; [apply HY; assumption|].
      simpl in Hi |- *. unfold prio, seqno; simpl. subst z. rewrite Hdepth. lia.
  - destruct (start_next t nt m) as [[x|] t'] eqn:Hs;
      destruct (exec sep t' os) as [t'' outs] eqn:He; simpl in Hin |- *.
    + destruct (start_next_some t nt m x t' Hs) as (e & h' & Hpop & -> & ->).
      destruct (heappop_spec _ _ _ Hpop) as (Hm & Hmin & Hsub & Hkeep).
      destruct (decide (item_of e = X)) as [HeX|HeX].
      { exists [], outs. rewrite HeX. split; [reflexivity|intros []]. }
      destruct (decide (item_of e = Y)) as [HeY|HeY].
      { exfalso. destruct (HY e Hm HeY) as [Hp Hs'].
        pose proof (Hmin _ HX) as Hlt. apply entry_lt_false in Hlt.
        unfold prio, seqno in *; simpl in *. lia. }
      destruct Hin as [Hi|Hin]; [congruence|].
      assert (Hrun : In Y (snd (exec sep (mkDiscover h' (counter t) (active t ++ [item_of e]) (maximum t)) os)))
        by (rewrite He; exact Hin).
      destruct (IH (mkDiscover h' (counter t) (active t ++ [item_of e]) (maximum t)) cx)
        as (o1 & o2 & Ho & Hno); [| simpl; exact Hc | | exact Hrun |].
      * simpl. apply Hkeep; [exact HX|]. intros Heq. apply HeX. rewrite <- Heq. reflexivity.
      * simpl. intros e' He' Hi'. apply HY; [apply Hsub|]; assumption.
      * rewrite He in Ho. simpl in Ho. subst outs.
        exists (item_of e :: o1), o2. split; [reflexivity|].
        intros [Hi|Hi]; [congruence|contradiction].
    + apply start_next_none in Hs. subst t'.
      assert (Hrun : In Y (snd (exec sep t os))) by (rewrite He; exact Hin).
      destruct (IH t cx HX Hc HY Hrun) as (o1 & o2 & Ho & Hno).
      rewrite He in Ho. exists o1, o2. exact (conj Ho Hno).
Qed.

(** What a run that never adds [Y] keeps: counters ahead of every entry,
    and no entry of [Y]. *)
Lemma exec_no_Y (os : list op) : forall t,
  (forall e, In e (heap_queue t) -> seqno e < counter t) ->
  (forall e, In e (heap_queue t) -> item_of e <> Y) ->
  ~ In (DAdd Y) os ->
  (forall e, In e (heap_queue (fst (exec sep t os))) -> seqno e < counter (fst (exec sep t os))) /\
  (forall e, In e (heap_queue (fst (exec sep t os))) -> item_of e <> Y).
Proof.
  induction os as [|o os IH]; intros t Hc HY Hno; simpl; [split; assumption|].
  destruct o as [z|nt m].
  - apply IH; [| | intros H; apply Hno; right; exact H].
    + unfold add, heappush; simpl. intros e He.
      apply in_app_or in He as [He|[<-|[]]]; [specialize (Hc e He); lia|].
      unfold seqno; simpl. lia.
    + unfold add, heappush; simpl. intros e He.
      apply in_app_or in He as [He|[<-|[]]]; [apply HY; exact He|].
      simpl. intros ->. apply Hno. left. reflexivity.
  - destruct (start_next t nt m) as [[x|] t'] eqn:Hs;
      destruct (exec sep t' os) as [t'' outs] eqn:He; simpl.
    + destruct (start_next_some t nt m x t' Hs) as (e & h' & Hpop & -> & ->).
      destruct (heappop_spec _ _ _ Hpop) as (_ & _ & Hsub & _).
      change t'' with (fst (t'', outs)). rewrite <- He.
      apply IH; [simpl; intros e' He'; apply Hc, Hsub, He'
                |simpl; intros e' He'; apply HY, Hsub, He'
                |intros H; apply Hno; right; exact H].
    + apply start_next_none in Hs. subst t'.
      change t'' with (fst (t'', outs)). rewrite <- He.
      apply IH; [exact Hc | exact HY | intros H; apply Hno; right; exact H].
Qed.

End Fifo.

Local Opaque Z.leb.

(** C4: with [os.sep = "/"] and any [maximum] that never blocks the three
    starts (the unbounded case), adding ["a/b/c"], ["a"], ["a/b"] and
    draining with repeated [start_next] yields ["a/b/c"; "a/b"; "a"]; and
    for two distinct paths [X], [Y] of equal depth, once [X] is added (with
    [Y] not added before), any run that dequeues [Y] has dequeued [X] first. *)
Theorem discover_priority_order (maximum0 : Z) (Hmax : 3 <= maximum0) :
  snd (exec posix_sep (new_discover maximum0)
         [DAdd "a/b/c"; DAdd "a"; DAdd "a/b";
          DStartNext None 2%Q; DStartNext None 2%Q; DStartNext None 2%Q; DStartNext None 2%Q])
    = ["a/b/c"; "a/b"; "a"]
  /\ (forall (X Y : string) (pre os : list op),
        X <> Y -> count_char posix_sep X = count_char posix_sep Y ->
        ~ In (DAdd Y) pre ->
        let t1 := fst (exec posix_sep (new_discover maximum0) pre) in
        In Y (snd (exec posix_sep t1 (DAdd X :: os))) ->
        exists o1 o2, snd (exec posix_sep t1 (DAdd X :: os)) = o1 ++ X :: o2 /\ ~ In Y o1).
Proof.
  split.
  - unfold exec, start_next; simpl.
    repeat (rewrite (proj2 (Z.leb_gt maximum0 _)) by (simpl; lia); simpl).
    destruct (Z.leb maximum0 _); reflexivity.
  - intros X Y pre os HXY Hd Hpre t1 Hin.
    destruct (exec_no_Y posix_sep Y pre (new_discover maximum0)) as [Hc HY];
      [simpl; intros e [] | simpl; intros e [] | exact Hpre |].
    fold t1 in Hc, HY.
    apply (fifo_from posix_sep X Y Hd os (add posix_sep t1 X) (counter t1));
      [| simpl; lia | | exact Hin].
    + unfold add, heappush; simpl. apply in_or_app. right. left. reflexivity.
    + unfold add, heappush; simpl. intros e He Hi.
      apply in_app_or in He as [He|[<-|[]]]; [exfalso; exact (HY e He Hi)|].
      simpl in Hi. congruence.
Qed.

Local Transparent Z.leb.

Lemma discover_priority_order_witness :
  3 <= 3 /\
  snd (exec posix_sep (new_discover 3)
         [DAdd "a/b/c"; DAdd "a"; DAdd "a/b";
          DStartNext None 2%Q; DStartNext None 2%Q; DStartNext None 2%Q; DStartNext None 2%Q])
    = ["a/b/c"; "a/b"; "a"].
Proof. split; [lia | exact (proj1 (discover_priority_order 3 ltac:(lia)))]. Defined.

End DiscoverFacts.

Module WorkerFacts.
Import Worker Inputs.

(** C5 (code_bug): when the [transform] raises after [execute] and the
    rejection check succeeded, the item has already been [finish]ed, and the
    [except] handler then also calls [fail]: two terminal dispositions. *)
Theorem transform_raise_double_disposition :
  dispositions (events_of (loop_body skip_check_execute true (Some raising_transform)
                             (Some first_field) false false false (PStr "photos/a.jpg")))
  = [EFinish (PStr "photos/a.jpg") 1; EFail (PStr "photos/a.jpg")].
Proof. reflexivity. Qed.

(** C6 (counterexample): an [execute] that raises on a plain path item, with a
    downstream stage present, forwards nothing downstream; only [fail] is
    called. *)
Lemma execute_raise_plain_item_not_forwarded :
  events_of (loop_body (fun _ => Raise (PExc "boom")) true None None false false false
               (PStr "photos/a.jpg")) = [EFail (PStr "photos/a.jpg")]
  /\ ~ In (EAddNext (PTuple [PStr "photos/a.jpg"; PExc "boom"]))
         (events_of (loop_body (fun _ => Raise (PExc "boom")) true None None false false false
                       (PStr "photos/a.jpg"))).
Proof. split; [reflexivity|]. simpl. intros [H|[]]. discriminate. Qed.

(** C6 (amended): when [execute] raises [e] on [item], the iteration emits
    [next_task.add((item[0], e))] exactly when a downstream stage exists and
    [item] is a non-empty tuple, and then calls [fail(item)]; nothing else. *)
Theorem execute_raise_events (execute : pyval -> outcome pyval) (next_task_present : bool)
    transform check_rejection has_pending_queue has_pending_attr verbose
    (item e : pyval) (Hraise : execute item = Raise e) :
  events_of (loop_body execute next_task_present transform check_rejection
               has_pending_queue has_pending_attr verbose item)
  = (if next_task_present then
       match item with
       | PTuple (input_path :: _) => [EAddNext (PTuple [input_path; e])]
       | _ => []
       end
     else []) ++ [EFail item].
Proof.
  unfold events_of, loop_body, try_except, bind, lift, emit, ret. rewrite Hraise.
  destruct next_task_present; [|reflexivity].
  destruct item as [| | | |l|l|]; try reflexivity. destruct l; reflexivity.
Qed.

Lemma execute_raise_events_witness :
  events_of (loop_body (fun _ => Raise (PExc "boom")) true None None false false false
               (PTuple [PStr "a.jpg"; PStr "handle"]))
  = [EAddNext (PTuple [PStr "a.jpg"; PExc "boom"]); EFail (PTuple [PStr "a.jpg"; PStr "handle"])].
Proof.
  exact (execute_raise_events (fun _ => Raise (PExc "boom")) true None None false false false
           (PTuple [PStr "a.jpg"; PStr "handle"]) (PExc "boom") eq_refl).
Defined.

End WorkerFacts.

Module ContextFacts.
Import Worker Context Inputs.

(** C7 (code_bug): for an exact target at 86410 s and a date-only candidate
    spanning [[0, 86399]], the code's score is [(86410, 11)] while the least
    and greatest possible distances are [(11, 86410)]; ranked by the code's
    max bound, that candidate comes before an exact one 20 s away. For a
    date-only target [[0, 86399]] and an exact candidate at 43200 (inside
    the day) the code's min is 43199, not 0. *)
Theorem relevance_score_bounds_swapped :
  calculate_relevance_score target_exact cand_day1 = Ret (Fin 86410, Fin 11)
  /\ spec_min_distance 86410 86410 0 86399 = 11
  /\ spec_max_distance 86410 86410 0 86399 = 86410
  /\ calculate_relevance_score target_exact cand_exact_20s = Ret (Fin 20, Fin 20)
  /\ map snd (sort_by_max [((Fin 86410, Fin 11), "day1.jpg"); ((Fin 20, Fin 20), "exact.jpg")])
     = ["day1.jpg"; "exact.jpg"]
  /\ calculate_relevance_score target_day1 cand_noon = Ret (Fin 43199, Fin 43200)
  /\ spec_min_distance 0 86399 43200 43200 = 0.
Proof. repeat split; reflexivity. Qed.

Section Execute.
Context (read_description : string -> option string).
Context (get_image_metadata : string -> Metadata).
Context (normpath : string -> string).
Context (collect_images : string -> list string).
Context (max_context_items : Z).

Lemma py_take_in {X} (n : Z) (l : list X) (x : X) : In x (py_take n l) -> In x l.
Proof.
  unfold py_take. destruct (Z.leb 0 n); intros H.
  - rewrite <- (firstn_skipn (Z.to_nat n) l). apply in_or_app. left. exact H.
  - rewrite <- (firstn_skipn (Z.to_nat (Z.of_nat (length l) + n)) l).
    apply in_or_app. left. exact H.
Qed.

Lemma gather_missing (cands : list (score * string)) :
  (exists c, In c cands /\ desc_truthy (read_description (snd c)) = None) ->
  gather read_description cands = None.
Proof.
  induction cands as [|[sc path] cands IH]; simpl; intros (c & Hc & Hd); [destruct Hc|].
  destruct Hc as [<-|Hc].
  - simpl in Hd. rewrite Hd. reflexivity.
  - destruct (desc_truthy (read_description path)); [|reflexivity].
    rewrite IH; [reflexivity|]. exists c. split; assumption.
Qed.

Lemma gather_all (cands : list (score * string)) :
  (forall c, In c cands -> desc_truthy (read_description (snd c)) <> None) ->
  exists kept, gather read_description cands = Some kept /\
    map (fun k => fst (fst k)) kept = List.filter (fun c => ext_lt_inf (snd (fst c))) cands /\
    (forall k, In k kept ->
       desc_truthy (read_description (snd (fst (fst k)))) = Some (snd k)
       /\ snd (fst k) = snd k).
Proof.
  induction cands as [|[sc path] cands IH]; simpl; intros Hall.
  - exists []. split; [reflexivity|]. split; [reflexivity|]. intros k [].
  - destruct (desc_truthy (read_description path)) as [d|] eqn:Hd;
      [|exfalso; apply (Hall (sc, path)); [left; reflexivity|exact Hd]].
    destruct IH as (kept & Hg & Hmap & Hk); [intros c Hc; apply Hall; right; exact Hc|].
    rewrite Hg.
    destruct (ext_lt_inf (snd sc)) eqn:Hf; simpl.
    + exists ((sc, path, d, d) :: kept). split; [reflexivity|]. split.
      * cbn [map List.filter fst snd]. rewrite Hmap. reflexivity.
      * intros k [<-|Hin]; [simpl; split; [exact Hd|reflexivity]|]. apply Hk, Hin.
    + exists kept. split; [reflexivity|]. split.
      * cbn [List.filter fst snd]. exact Hmap.
      * exact Hk.
Qed.

(** C8 (amended): a target without a description gives [(path, "", [])]; a
    target with description [d] and any ranked candidate without one gives
    the empty context [(path, d, [], d, [])] for the whole item; only when
    every candidate has a description are the candidates with a finite
    score kept, in rank order, each with its own description, and the first
    [max_context_items] of them returned. *)
Theorem context_missing_candidate_drops_all (input_path : string) :
  (desc_truthy (read_description input_path) = None ->
   execute read_description get_image_metadata normpath collect_images max_context_items input_path
   = PTuple [PStr input_path; PStr ""; PList []])
  /\ (forall d, desc_truthy (read_description input_path) = Some d ->
      (exists c, In c (nearby_of get_image_metadata normpath collect_images input_path) /\ desc_truthy (read_description (snd c)) = None) ->
      execute read_description get_image_metadata normpath collect_images max_context_items input_path
      = empty_context input_path d)
  /\ (forall d, desc_truthy (read_description input_path) = Some d ->
      (forall c, In c (nearby_of get_image_metadata normpath collect_images input_path) -> desc_truthy (read_description (snd c)) <> None) ->
      exists kept : list (score * string * string * string),
        map (fun k => fst (fst k)) kept = List.filter (fun c => ext_lt_inf (snd (fst c))) (nearby_of get_image_metadata normpath collect_images input_path)
        /\ (forall k, In k kept ->
              desc_truthy (read_description (snd (fst (fst k)))) = Some (snd k))
        /\ execute read_description get_image_metadata normpath collect_images max_context_items input_path
           = PTuple [PStr input_path; PStr d; PList (map (fun k => PStr (snd k)) (py_take max_context_items kept));
                     PStr d; PList (map (fun k => PStr (snd k)) (py_take max_context_items kept))]).
Proof.
  unfold execute. fold (nearby_of get_image_metadata normpath collect_images input_path). split; [|split].
  - intros H. rewrite H. reflexivity.
  - intros d Hd Hmiss. rewrite Hd.
    rewrite (gather_missing _ Hmiss).
    destruct (nearby_of get_image_metadata normpath collect_images input_path); reflexivity.
  - intros d Hd Hall. rewrite Hd.
    destruct (gather_all _ Hall) as (kept & Hg & Hmap & Hk).
    exists kept. split; [exact Hmap|]. split; [intros k Hin; apply (Hk k Hin)|].
    destruct (nearby_of get_image_metadata normpath collect_images input_path) as [|c cs] eqn:Hn.
    + simpl in Hg. injection Hg as <-. unfold py_take.
      destruct (Z.leb 0 _); rewrite firstn_nil; reflexivity.
    + rewrite Hg.
      assert (Hfull : map (fun '(_, _, full_desc, _) => PStr full_desc) (py_take max_context_items kept)
                      = map (fun k => PStr (snd k)) (py_take max_context_items kept)).
      { apply map_ext_in. intros [[[sc p] fd] dd] Hin. simpl.
        apply py_take_in, Hk in Hin. simpl in Hin. destruct Hin as [_ ->]. reflexivity. }
      assert (Hdesc : map (fun '(_, _, _, desc) => PStr desc) (py_take max_context_items kept)
                      = map (fun k => PStr (snd k)) (py_take max_context_items kept)).
      { apply map_ext_in. intros [[[sc p] fd] dd] Hin. reflexivity. }
      rewrite Hfull, Hdesc. reflexivity.
Qed.

End Execute.

Lemma context_missing_candidate_drops_all_witness :
  execute ctx_read ctx_meta ctx_normpath ctx_collect 20 "t.jpg" = empty_context "t.jpg" "desc t".
Proof.
  apply (proj1 (proj2 (context_missing_candidate_drops_all ctx_read ctx_meta ctx_normpath
                         ctx_collect 20 "t.jpg")) "desc t" eq_refl).
  exists ((Fin 0, Fin 0), "c2.jpg"). split; [vm_compute; right; left; reflexivity | reflexivity].
Defined.

(** C8 (counterexample): the target ["t.jpg"] and candidate ["c1.jpg"] have
    descriptions, ["c2.jpg"] has none; the result is the empty context, so
    ["c1.jpg"]'s description is not returned. *)
Lemma missing_candidate_empties_context :
  execute ctx_read ctx_meta ctx_normpath ctx_collect 20 "t.jpg" = empty_context "t.jpg" "desc t"
  /\ ~ (exists l l', execute ctx_read ctx_meta ctx_normpath ctx_collect 20 "t.jpg"
                     = PTuple [PStr "t.jpg"; PStr "desc t"; PList l; PStr "desc t"; PList l']
                     /\ In (PStr "desc 1") l).
Proof.
  split; [vm_compute; reflexivity|].
  intros (l & l' & H & Hin). vm_compute in H. injection H as <- _. destruct Hin.
Qed.

(** C10: [ContextTask.execute] returns the 3-tuple [(path, "", [])] when the
    original description is missing and a 5-tuple
    [(path, d, context_descriptions, d, context_full_descriptions)] when it
    is present. *)
Theorem execute_result_arity (read_description : string -> option string)
    (get_image_metadata : string -> Metadata) (normpath : string -> string)
    (collect_images : string -> list string) (max_context_items : Z) (input_path : string) :
  (desc_truthy (read_description input_path) = None ->
   execute read_description get_image_metadata normpath collect_images max_context_items input_path
   = PTuple [PStr input_path; PStr ""; PList []])
  /\ (forall d, desc_truthy (read_description input_path) = Some d ->
      exists descs full_descs,
        execute read_description get_image_metadata normpath collect_images max_context_items input_path
        = PTuple [PStr input_path; PStr d; PList descs; PStr d; PList full_descs]).
Proof.
  unfold execute. split.
  - intros H. rewrite H. reflexivity.
  - intros d H. rewrite H.
    destruct (get_nearby_images _ _ _ _ _) as [|c cs]; [exists [], []; reflexivity|].
    destruct (gather read_description (c :: cs)); [|exists [], []; reflexivity].
    eexists _, _. reflexivity.
Qed.

Lemma execute_result_arity_witness :
  execute ctx_read ctx_meta ctx_normpath ctx_collect 20 "x.jpg" = PTuple [PStr "x.jpg"; PStr ""; PList []]
  /\ exists descs full_descs,
       execute ctx_read ctx_meta ctx_normpath ctx_collect 20 "t.jpg"
       = PTuple [PStr "t.jpg"; PStr "desc t"; PList descs; PStr "desc t"; PList full_descs].
Proof.
  split.
  - apply (proj1 (execute_result_arity ctx_read ctx_meta ctx_normpath ctx_collect 20 "x.jpg")).
    vm_compute. reflexivity.
  - apply (proj2 (execute_result_arity ctx_read ctx_meta ctx_normpath ctx_collect 20 "t.jpg")).
    vm_compute. reflexivity.
Defined.

End ContextFacts.

Module WriteFacts.
Import Worker Write Inputs.

Section WriteTask.
Context {DT : Type} (render_datetime : DT -> string).
Context (input_dir output_dir : option string) (output_format output_suffix error_suffix : string).
Context (relpath join : string -> string -> string).
Context (format : string -> list (string * string) -> fmt_result).
Context (env : os_env).

Local Abbreviation run := (execute render_datetime input_dir output_dir output_format output_suffix
                         error_suffix relpath join format env).
Local Abbreviation out_path := (output_file input_dir output_dir output_suffix relpath join).
Local Abbreviation err_path := (error_file input_dir output_dir error_suffix relpath join).

(** C9 (code bug): the error-artifact lifecycle has two gaps. On an error
    value whose error artifact path has an empty [os.path.dirname] (no
    [input_dir]/[output_dir] and an input path without a directory part),
    [os.makedirs("")] raises [FileNotFoundError], which [execute] re-raises:
    no error artifact is written and no file changes. And after a successful
    write of content, a failing [os.remove] of the existing error artifact is
    ignored: [execute] returns the output path and the error artifact stays. *)
Theorem write_error_artifact_lifecycle_gaps (files : fs) (it : @item DT) (input_path : string) :
  (forall msg md,
     unpack it = (input_path, PError msg, md) ->
     PathOps.dirname (err_path input_path) = "" ->
     run files it = (Raise (PExc "FileNotFoundError"), files))
  /\ (forall c md text e,
       unpack it = (input_path, PContent c, md) ->
       makedirs env files (PathOps.dirname (out_path input_path)) = None ->
       formatted_content render_datetime output_format format md c = Ret text ->
       open_error env files (out_path input_path) = None ->
       remove_error env (<[out_path input_path := text]> files) (err_path input_path) = Some e ->
       run files it = (Ret (out_path input_path), <[out_path input_path := text]> files)).
Proof.
  split.
  - intros msg md Hu Hd. unfold execute. rewrite Hu. unfold makedirs. rewrite Hd. reflexivity.
  - intros c md text e Hu Hmk Ht Hop Hrm. unfold execute. rewrite Hu, Hmk, Ht, Hop.
    case_decide; [rewrite Hrm|]; reflexivity.
Qed.

End WriteTask.

Lemma write_error_artifact_lifecycle_gaps_witness :
  execute (DT:=unit) (fun _ => "") None None "{content}" ".txt" ".error.txt"
    w_relpath w_join w_format os_ok ∅ (Item2 "a.jpg" (PError "timeout"))
  = (Raise (PExc "FileNotFoundError"), ∅)
  /\ execute (DT:=unit) (fun _ => "") (Some "/in") (Some "/out") "{content}" ".txt" ".error.txt"
       w_relpath w_join w_format os_remove_denied w_files (Item3 "a.jpg" (PContent "a cat") None)
     = (Ret "/out/a.jpg.txt", <["/out/a.jpg.txt" := "formatted"]> w_files)
  /\ (<["/out/a.jpg.txt" := "formatted"]> w_files) !! "/out/a.jpg.error.txt" = Some "timeout".
Proof.
  split; [|split].
  - exact (proj1 (write_error_artifact_lifecycle_gaps (DT:=unit) (fun _ => "") None None "{content}"
                    ".txt" ".error.txt" w_relpath w_join w_format os_ok ∅
                    (Item2 "a.jpg" (PError "timeout")) "a.jpg")
                 "timeout" None eq_refl ltac:(vm_compute; reflexivity)).
  - exact (proj2 (write_error_artifact_lifecycle_gaps (DT:=unit) (fun _ => "") (Some "/in") (Some "/out")
                    "{content}" ".txt" ".error.txt" w_relpath w_join w_format os_remove_denied w_files
                    (Item3 "a.jpg" (PContent "a cat") None) "a.jpg")
                 "a cat" None "formatted" (PExc "PermissionError")
                 eq_refl ltac:(vm_compute; reflexivity) eq_refl eq_refl eq_refl).
  - vm_compute. reflexivity.
Defined.

End WriteFacts.

Module StatsFmtFacts.
Import Stats StatsFmt.

Lemma rrun_app s r1 r2 : rrun s (r1 ++ r2) = rrun (rrun s r1) r2.
Proof. unfold rrun. apply fold_left_app. Qed.

Lemma str_app_assoc (a b c : string) : ((a ++ b) ++ c)%string = (a ++ (b ++ c))%string.
Proof.
  induction a as [|x a IH]; [reflexivity|].
  change (String x ((a ++ b) ++ c) = String x (a ++ b ++ c))%string. rewrite IH. reflexivity.
Qed.

Lemma diff_rrun (rs : list rcall) : forall s,
  diff_input_output (rrun s rs) = diff_input_output s || existsb uneven_finish rs.
Proof.
  induction rs as [|r rs IH]; intros s; simpl.
  - destruct (diff_input_output s); reflexivity.
  - rewrite IH. destruct r as [[n| |]|]; simpl; try reflexivity.
    destruct (Z.eqb n 1), (diff_input_output s); reflexivity.
Qed.

(** [TaskStats.diff_input_output] is set exactly when some [finish(n)] had
    [n <> 1], and [reset] never clears it; once set, [format] starts with
    the input count followed by ">". *)
Theorem diff_flag_sticky (rs : list rcall) :
  diff_input_output (rrun init rs) = existsb uneven_finish rs
  /\ (existsb uneven_finish rs = true ->
      exists rest, format (rrun init rs) = (str_of_Z (input (rrun init rs)) ++ ">" ++ rest)%string).
Proof.
  rewrite diff_rrun. simpl. split; [reflexivity|].
  intros Hx. unfold format. rewrite diff_rrun, Hx. simpl.
  destruct (0 <? failed _), (0 <? rejected _); simpl; eexists; repeat rewrite str_app_assoc; simpl; reflexivity.
Qed.

End StatsFmtFacts.

Module StatsCountFacts.
Import Stats StatsFmt.

Lemma run_counts (cs : list call) : forall s,
  done (run s cs) = done s + Z.of_nat (length (List.filter is_finish cs))
  /\ failed (run s cs) = failed s + Z.of_nat (length (List.filter is_fail cs))
  /\ rejected (run s cs) = rejected s + Z.of_nat (length (List.filter is_reject cs))
  /\ output (run s cs) = output s + fold_right Z.add 0 (map finish_count cs).
Proof.
  induction cs as [|c cs IH]; intros s; simpl; [lia|].
  destruct (IH (apply_call s c)) as (H1 & H2 & H3 & H4). unfold run in *.
  rewrite H1, H2, H3, H4.
  destruct c; simpl; rewrite ?Nat2Z.inj_succ; lia.
Qed.

(** From fresh stats, [done], [failed] and [rejected] count the [finish],
    [fail] and [reject] calls, and [output] is the sum of the counts passed
    to [finish]. *)
Theorem stats_run_counts (cs : list call) :
  done (run init cs) = Z.of_nat (length (List.filter is_finish cs))
  /\ failed (run init cs) = Z.of_nat (length (List.filter is_fail cs))
  /\ rejected (run init cs) = Z.of_nat (length (List.filter is_reject cs))
  /\ output (run init cs) = fold_right Z.add 0 (map finish_count cs).
Proof. destruct (run_counts cs init) as (H1 & H2 & H3 & H4). simpl in *. lia. Qed.

End StatsCountFacts.

Module TaskRunFacts.
Import TaskQ TaskRun.
Section Facts.
Context {A : Type} `{EqDecision A}.

Lemma remove_first_submseteq (x : A) (l : list A) : remove_first x l ⊆+ l.
Proof.
  induction l as [|y l IH]; simpl; [done|].
  destruct (decide (x = y)); [by apply submseteq_cons|by apply submseteq_skip].
Qed.

Lemma drop_active_submseteq (t : @Task A) (x : A) : drop_active t x ⊆+ active t.
Proof. unfold drop_active. case_decide; [apply remove_first_submseteq|done]. Qed.

Lemma start_next_cases (t : @Task A) nt m :
  match start_next t nt m with
  | (Some x, t') => queue t = x :: queue t' /\ active t' = active t ++ [x]
  | (None, t') => t' = t
  end.
Proof.
  unfold start_next.
  destruct (Z.leb _ _); [reflexivity|].
  destruct (queue t) as [|x rest] eqn:Hq; [reflexivity|].
  destruct nt as [nt|]; [destruct (downstream_full nt m); [reflexivity|]|];
    simpl; split; reflexivity.
Qed.

(** Over any sequence of [Task] operations, the items [start_next] hands
    out followed by the final queue are the initial queue followed by the
    added items, in order; the final active list holds only items that were
    active at the start or handed out. *)
Theorem task_fifo_conservation (os : list (@op A)) : forall t,
  snd (exec t os) ++ queue (fst (exec t os)) = queue t ++ added os
  /\ active (fst (exec t os)) ⊆+ active t ++ snd (exec t os).
Proof.
  induction os as [|o os IH]; intros t; simpl.
  - rewrite !app_nil_r. done.
  - destruct o as [x|nt m|x n|x|x]; simpl.
    + destruct (IH (add t x)) as [H1 H2]. simpl in H1, H2.
      rewrite H1, <- app_assoc. done.
    + pose proof (start_next_cases t nt m) as Hc.
      destruct (start_next t nt m) as [[x|] t'].
      * destruct Hc as [Hq Ha].
        destruct (IH t') as [H1 H2]. destruct (exec t' os) as [t'' outs]. simpl in *.
        rewrite Hq. split; [simpl; rewrite H1; reflexivity|].
        rewrite Ha, <- app_assoc in H2. exact H2.
      * subst t'. destruct (IH t) as [H1 H2]. destruct (exec t os) as [t'' outs]. simpl in *.
        split; assumption.
    + destruct (IH (finish t x n)) as [H1 H2]. simpl in H1, H2. split; [exact H1|].
      etrans; [exact H2|]. apply submseteq_app; [apply drop_active_submseteq|done].
    + destruct (IH (fail t x)) as [H1 H2]. simpl in H1, H2. split; [exact H1|].
      etrans; [exact H2|]. apply submseteq_app; [apply drop_active_submseteq|done].
    + destruct (IH (reject t x)) as [H1 H2]. simpl in H1, H2. split; [exact H1|].
      etrans; [exact H2|]. apply submseteq_app; [apply drop_active_submseteq|done].
Qed.

End Facts.
End TaskRunFacts.

Module BackpressureFacts.

(** A downstream task whose backpressure threshold [maximum * multiplier]
    is not positive blocks [start_next] of every [Task] and every
    [DiscoverTask] in front of it: nothing is handed out and nothing
    changes. *)
Theorem start_next_blocked_nonpositive_threshold (nt : @TaskQ.Task string) (m : Q)
    (Hthr : (inject_Z (TaskQ.maximum nt) * m <= 0)%Q) :
  (forall (t : @TaskQ.Task string), TaskQ.start_next t (Some nt) m = (None, t))
  /\ (forall (t : Discover.DiscoverTask), Discover.start_next t (Some nt) m = (None, t)).
Proof.
  assert (Hf : TaskQ.downstream_full nt m = true).
  { unfold TaskQ.downstream_full. apply Qle_bool_iff.
    eapply Qle_trans; [exact Hthr|]. unfold Qle; simpl. lia. }
  split; intros t.
  - unfold TaskQ.start_next. destruct (Z.leb _ _); [reflexivity|].
    destruct (TaskQ.queue t); [reflexivity|]. rewrite Hf. reflexivity.
  - unfold Discover.start_next. destruct (Z.leb _ _); [reflexivity|].
    case_decide; [reflexivity|]. rewrite Hf. reflexivity.
Qed.

Lemma start_next_blocked_nonpositive_threshold_witness :
  (inject_Z (TaskQ.maximum (TaskQ.new_task (A:=string) 0)) * 2 <= 0)%Q
  /\ TaskQ.start_next (TaskQ.add (TaskQ.new_task 1) "a.jpg") (Some (TaskQ.new_task 0)) 2
     = (None, TaskQ.add (TaskQ.new_task 1) "a.jpg").
Proof.
  split; [vm_compute; discriminate|].
  apply (proj1 (start_next_blocked_nonpositive_threshold (TaskQ.new_task 0) 2
                  ltac:(vm_compute; discriminate))).
Defined.

End BackpressureFacts.

Module DiscoverRunFacts.
Import Discover DiscoverRun.
Section Facts.
Context (sep : Ascii.ascii).

Lemma min_entry_in (best : entry) (l : list entry) : min_entry best l ∈ best :: l.
Proof.
  revert best. induction l as [|e l IH]; intros best; simpl; [left|].
  destruct (entry_lt e best).
  - pose proof (IH e) as H. apply elem_of_cons in H as [->|H]; [right; left|right; right; exact H].
  - pose proof (IH best) as H. apply elem_of_cons in H as [->|H]; [left|right; right; exact H].
Qed.

Lemma remove_entry_perm (x : entry) (l : list entry) : x ∈ l -> l ≡ₚ x :: remove_entry x l.
Proof.
  induction l as [|y l IH]; intros Hx; [by apply elem_of_nil in Hx|]. simpl.
  destruct (decide (x = y)) as [->|Hne]; [done|].
  apply elem_of_cons in Hx as [->|Hx]; [done|].
  etrans; [apply perm_skip, (IH Hx)|]. apply Permutation_swap.
Qed.

(** Over any sequence of [DiscoverTask] [add] and [start_next] calls, the
    paths handed out together with the paths left in the heap are, up to
    order, the initial ones and the added ones: no path is lost or
    duplicated. *)
Theorem discover_conservation (os : list op) : forall t,
  snd (exec sep t os) ++ queue (fst (exec sep t os)) ≡ₚ queue t ++ added os.
Proof.
  induction os as [|o os IH]; intros t; simpl.
  - rewrite app_nil_r. done.
  - destruct o as [x|nt m].
    + rewrite IH. unfold queue, add, heappush; simpl. rewrite map_app, <- app_assoc. done.
    + unfold start_next.
      assert (Hnone : snd (let '(t'', outs) := exec sep t os in (t'', outs))
                      ++ queue (fst (let '(t'', outs) := exec sep t os in (t'', outs)))
                      ≡ₚ queue t ++ [] ++ added os).
      { pose proof (IH t) as H. destruct (exec sep t os). exact H. }
      destruct (Z.leb _ _); [exact Hnone|].
      case_decide as Hq; [exact Hnone|].
      destruct (match nt with Some nt => TaskQ.downstream_full nt m | None => false end); [exact Hnone|].
      clear Hnone. destruct (heap_queue t) as [|e h'] eqn:Hh; [done|]. unfold heappop.
      set (me := min_entry e h'). set (h2 := remove_entry me (e :: h')).
      pose proof (IH (mkDiscover h2 (counter t) (active t ++ [item_of me]) (maximum t))) as H.
      destruct (exec sep _ os) as [t'' outs]. simpl in *.
      rewrite H. unfold queue; rewrite Hh.
      assert (Hp : e :: h' ≡ₚ me :: h2) by (apply remove_entry_perm, min_entry_in).
      apply (Permutation_map item_of) in Hp. rewrite Hp. simpl. done.
Qed.

End Facts.
End DiscoverRunFacts.

Module PathFacts.
Import PathOps.

Abbreviation chars := String.list_ascii_of_string.
Abbreviation of_chars := String.string_of_list_ascii.

Lemma chars_app (s1 s2 : string) : chars (s1 ++ s2)%string = chars s1 ++ chars s2.
Proof.
  induction s1 as [|a s1 IH]; [reflexivity|].
  change (a :: chars (s1 ++ s2)%string = a :: chars s1 ++ chars s2). rewrite IH. reflexivity.
Qed.

Lemma of_chars_app (l1 l2 : list ascii) : of_chars (l1 ++ l2) = (of_chars l1 ++ of_chars l2)%string.
Proof. induction l1 as [|a l1 IH]; [reflexivity|]. simpl. rewrite IH. reflexivity. Qed.

Lemma of_chars_chars (s : string) : of_chars (chars s) = s.
Proof. apply String.string_of_list_ascii_of_string. Qed.

Lemma chars_of_chars (l : list ascii) : chars (of_chars l) = l.
Proof. apply String.list_ascii_of_string_of_list_ascii. Qed.

Lemma rfind_aux_app (c : ascii) (l1 l2 : list ascii) : forall i acc,
  rfind_aux c (l1 ++ l2) i acc = rfind_aux c l2 (i + Z.of_nat (length l1)) (rfind_aux c l1 i acc).
Proof.
  induction l1 as [|a l1 IH]; intros i acc; simpl.
  - rewrite Z.add_0_r. reflexivity.
  - rewrite IH. f_equal. lia.
Qed.

Lemma rfind_aux_notin (c : ascii) (l : list ascii) : forall i acc, ~ In c l -> rfind_aux c l i acc = acc.
Proof.
  induction l as [|a l IH]; intros i acc Hn; simpl; [reflexivity|].
  destruct (Ascii.eqb_spec a c) as [->|_]; [exfalso; apply Hn; left; reflexivity|].
  apply IH. intros H; apply Hn; right; exact H.
Qed.

Lemma rfind_aux_last (c : ascii) (l1 l2 : list ascii) i acc :
  ~ In c l2 -> rfind_aux c (l1 ++ c :: l2) i acc = i + Z.of_nat (length l1).
Proof.
  intros Hn. rewrite rfind_aux_app. simpl. rewrite Ascii.eqb_refl. apply rfind_aux_notin. exact Hn.
Qed.

(** [rfind] finds the last occurrence, or returns -1 when there is none. *)
Lemma rfind_spec (c : ascii) (l : list ascii) :
  let r := rfind_aux c l 0 (-1) in
  (r = -1 /\ ~ In c l)
  \/ (0 <= r < Z.of_nat (length l) /\ nth_error l (Z.to_nat r) = Some c
      /\ ~ In c (skipn (S (Z.to_nat r)) l)).
Proof.
  induction l as [|a l IH] using rev_ind; simpl.
  - left. split; [reflexivity|intros []].
  - rewrite rfind_aux_app. simpl. rewrite Z.add_0_l, length_app. simpl.
    destruct (Ascii.eqb_spec a c) as [->|Hne].
    + right. rewrite Nat2Z.id. split; [lia|]. split.
      * rewrite nth_error_app2 by lia. rewrite Nat.sub_diag. reflexivity.
      * rewrite skipn_all2; [intros []|]. rewrite length_app. simpl. lia.
    + destruct IH as [[Hr Hn]|(Hr & Hnth & Hn)]; [left|right].
      * split; [exact Hr|]. rewrite in_app_iff. intros [H|[H|[]]]; [exact (Hn H)|exact (Hne H)].
      * split; [lia|]. split.
        -- rewrite nth_error_app1 by lia. exact Hnth.
        -- rewrite skipn_app. rewrite in_app_iff. intros [H|H]; [exact (Hn H)|].
           replace (S (Z.to_nat (rfind_aux c l 0 (-1))) - length l)%nat with 0%nat in H by lia.
           destruct H as [H|[]]. exact (Hne H).
Qed.

Lemma skip_dots_true (p : string) (d : Z) (fuel : nat) : forall fi j,
  fi <= j < d -> j - fi < Z.of_nat fuel -> char_at p j <> Some "."%char ->
  skip_dots p fi d fuel = true.
Proof.
  induction fuel as [|fuel IH]; intros fi j Hj Hf Hc; simpl; [lia|].
  destruct (Z.ltb_spec fi d); [|lia].
  case_decide as Hd; [|reflexivity].
  apply (IH (fi + 1) j); [|lia|exact Hc].
  split; [|lia]. destruct (Z.eq_dec fi j) as [->|]; [contradiction|lia].
Qed.

Lemma in_skipn_le {X} (n m : nat) (l : list X) (x : X) :
  (n <= m)%nat -> In x (skipn m l) -> In x (skipn n l).
Proof.
  intros Hle H. replace m with ((m - n) + n)%nat in H by lia.
  rewrite <- skipn_skipn in H. rewrite <- (firstn_skipn (m - n) (skipn n l)).
  apply in_or_app. right. exact H.
Qed.

Lemma str_app_nil_r (s : string) : (s ++ "")%string = s.
Proof.
  induction s as [|a s IH]; [reflexivity|].
  change (String a (s ++ "") = String a s)%string. rewrite IH. reflexivity.
Qed.

Lemma skipn_nth {X} (l : list X) : forall n x,
  nth_error l n = Some x -> skipn n l = x :: skipn (S n) l.
Proof.
  induction l as [|y l IH]; intros [|n] x H; simpl in *; try discriminate.
  - injection H as ->. reflexivity.
  - apply IH. exact H.
Qed.

Lemma splitext_shape (p : string) :
  (fst (splitext p) ++ snd (splitext p))%string = p
  /\ (snd (splitext p) = ""
      \/ exists r, snd (splitext p) = String "."%char r
             /\ ~ In "."%char (chars r) /\ ~ In "/"%char (chars r)).
Proof.
  unfold splitext, rfind.
  pose proof (rfind_spec "/"%char (chars p)) as Hs. pose proof (rfind_spec "."%char (chars p)) as Hd.
  simpl in Hs, Hd.
  set (sI := rfind_aux "/"%char (chars p) 0 (-1)) in *.
  set (dI := rfind_aux "."%char (chars p) 0 (-1)) in *.
  destruct (Z.ltb_spec sI dI) as [Hlt|]; [|simpl; rewrite str_app_nil_r; auto].
  destruct (skip_dots _ _ _ _); [|simpl; rewrite str_app_nil_r; auto].
  assert (Hd' : 0 <= dI < Z.of_nat (length (chars p)) /\ nth_error (chars p) (Z.to_nat dI) = Some "."%char
                /\ ~ In "."%char (skipn (S (Z.to_nat dI)) (chars p))).
  { destruct Hd as [[Hd _]|Hd]; [|exact Hd]. exfalso. destruct Hs as [[Hs _]|Hs]; lia. }
  destruct Hd' as (Hrange & Hnth & Hndot). simpl. split.
  - unfold slice_to, slice_from. rewrite <- of_chars_app, firstn_skipn. apply of_chars_chars.
  - right. exists (of_chars (skipn (S (Z.to_nat dI)) (chars p))).
    unfold slice_from. rewrite chars_of_chars, (skipn_nth _ _ _ Hnth). simpl.
    split; [reflexivity|]. split; [exact Hndot|].
    intros Hin. destruct Hs as [[_ Hs]|(Hsr & _ & Hs)].
    + apply Hs. rewrite <- (firstn_skipn (S (Z.to_nat dI)) (chars p)). apply in_or_app. right. exact Hin.
    + apply Hs. apply (in_skipn_le _ (S (Z.to_nat dI))); [lia|exact Hin].
Qed.

Lemma splitext_fixed (input_path : string) (Hext : snd (splitext input_path) <> "") :
  splitext (fst (splitext input_path) ++ ".fixed" ++ snd (splitext input_path))%string
    = ((fst (splitext input_path) ++ ".fixed")%string, snd (splitext input_path)).
Proof.
  destruct (splitext_shape input_path) as [_ [Hnil|(r & Hr & Hrdot & Hrsep)]]; [contradiction|].
  rewrite Hr. clear Hext Hr. set (base := fst (splitext input_path)). clearbody base.
  assert (Hc : chars (base ++ ".fixed" ++ String "."%char r)%string
               = (chars base ++ chars ".fixed") ++ "."%char :: chars r).
  { rewrite !chars_app, <- app_assoc. reflexivity. }
  unfold splitext, rfind. rewrite Hc.
  rewrite rfind_aux_last by exact Hrdot.
  assert (Hsl : rfind_aux "/"%char ((chars base ++ chars ".fixed") ++ "."%char :: chars r) 0 (-1)
                = rfind_aux "/"%char (chars base) 0 (-1)).
  { rewrite <- app_assoc, rfind_aux_app. apply rfind_aux_notin.
    rewrite in_app_iff. intros [H|[H|H]]; [simpl in H; intuition discriminate|discriminate|exact (Hrsep H)]. }
  rewrite Hsl.
  pose proof (rfind_spec "/"%char (chars base)) as Hs. simpl in Hs.
  set (sB := rfind_aux "/"%char (chars base) 0 (-1)) in *.
  rewrite length_app. simpl (length (chars ".fixed")).
  assert (HsB : -1 <= sB < Z.of_nat (length (chars base))) by (destruct Hs as [[-> _]|(H & _)]; lia).
  destruct (Z.ltb_spec sB (0 + Z.of_nat (length (chars base) + 6))) as [_|]; [|lia].
  rewrite (skip_dots_true _ _ _ (sB + 1) (Z.of_nat (length (chars base)) + 1)); [| lia | lia |].
  2:{ unfold char_at. rewrite Hc, <- app_assoc, nth_error_app2 by lia.
      replace (Z.to_nat (Z.of_nat (length (chars base)) + 1) - length (chars base))%nat with 1%nat by lia.
      discriminate. }
  unfold slice_to, slice_from. rewrite Hc.
  replace (Z.to_nat (0 + Z.of_nat (length (chars base) + 6))) with (length (chars base ++ chars ".fixed"))
    by (rewrite length_app; simpl; lia).
  rewrite firstn_app, firstn_all, Nat.sub_diag, firstn_O, app_nil_r, skipn_app, skipn_all, Nat.sub_diag.
  rewrite of_chars_app, of_chars_chars. simpl. rewrite of_chars_chars. reflexivity.
Qed.

(** For a path with an extension, [splitext] of its ".fixed" variant
    keeps the same extension, and [get_preferred_image_path] returns that
    variant exactly when it exists, the original path otherwise. *)
Theorem preferred_image_path_keeps_extension (exists_ : string -> bool) (input_path : string)
    (Hext : snd (splitext input_path) <> "") :
  splitext (fst (splitext input_path) ++ ".fixed" ++ snd (splitext input_path))%string
    = ((fst (splitext input_path) ++ ".fixed")%string, snd (splitext input_path))
  /\ get_preferred_image_path exists_ input_path
     = (let fixed_path := (fst (splitext input_path) ++ ".fixed" ++ snd (splitext input_path))%string in
        if exists_ fixed_path then fixed_path else input_path).
Proof.
  split; [exact (splitext_fixed input_path Hext)|].
  unfold get_preferred_image_path; destruct (splitext input_path); reflexivity.
Qed.

Lemma preferred_image_path_keeps_extension_witness :
  splitext "photos/IMG_1.fixed.jpg" = ("photos/IMG_1.fixed", ".jpg")
  /\ get_preferred_image_path (fun q => String.eqb q "photos/IMG_1.fixed.jpg") "photos/IMG_1.jpg"
     = "photos/IMG_1.fixed.jpg".
Proof.
  destruct (preferred_image_path_keeps_extension (fun q => String.eqb q "photos/IMG_1.fixed.jpg")
              "photos/IMG_1.jpg" ltac:(vm_compute; discriminate)) as [H1 H2].
  split; [exact H1|]. rewrite H2. vm_compute. reflexivity.
Defined.

(** A ".fixed" copy of a file that has an extension has the same
    lower-cased extension as the file, so [DiscoverTask]'s image filter
    lists the copy exactly when it lists the original. *)
Theorem fixed_copy_same_extension (p : string) (Hext : snd (splitext p) <> "") :
  DiscoverExec.ext_of (fst (splitext p) ++ ".fixed" ++ snd (splitext p))%string = DiscoverExec.ext_of p.
Proof. unfold DiscoverExec.ext_of. rewrite (splitext_fixed p Hext). reflexivity. Qed.

End PathFacts.

Module DiscoverExecFacts.
Import Worker DiscoverExec.

Lemma split_digits_ok (l : list ascii) : chunks_ok true (split_digits l) /\ split_digits l <> [].
Proof.
  induction l as [|c l [IH Hne]]; simpl; [split; [tauto|discriminate]|].
  destruct (split_digits l) as [|first rest]; [contradiction|].
  destruct (is_digit c) eqn:Hc.
  - destruct first as [|a first], rest as [|d rest'];
      simpl in IH |- *; unfold digit_run in *; simpl in *; rewrite ?Hc; simpl.
    + split; [tauto|discriminate].
    + destruct IH as [_ [Hd Hrest]]. apply andb_prop in Hd as [_ Hd]. rewrite Hd.
      split; [tauto|discriminate].
    + split; [tauto|discriminate].
    + split; [tauto|discriminate].
  - simpl in IH |- *. destruct IH as [Hf Hrest]. rewrite Hc, Hf. split; [tauto|discriminate].
Qed.

Lemma nondigit_run_int (t : list ascii) :
  forallb (fun c => negb (is_digit c)) t = true -> isdigit t = true ->
  exists e, int_of_digits t = Raise e.
Proof.
  destruct t as [|c t]; [discriminate|]. simpl. intros H _.
  apply andb_prop in H as [H _]. unfold int_of_digits. simpl.
  destruct (is_digit c); [discriminate|]. eexists; reflexivity.
Qed.

Lemma digit_run_isdigit (t : list ascii) : digit_run t = true -> isdigit t = true.
Proof.
  unfold digit_run, isdigit. intros H. apply andb_prop in H as [H1 H2]. rewrite H1. simpl.
  apply forallb_forall. intros c Hc. apply (forallb_forall _ _) with (x := c) in H2; [|exact Hc].
  unfold py_isdigit_char. rewrite H2. reflexivity.
Qed.

Lemma chunks_key_alt (cs : list (list ascii)) : forall b k, chunks_ok b cs ->
  map_outcome (fun t => if isdigit t
                        then match int_of_digits t with
                             | Ret z => Ret (KInt z)
                             | Raise e => Raise e
                             end
                        else Ret (KStr (lower (String.string_of_list_ascii t)))) cs = Ret k ->
  key_alt b k.
Proof.
  induction cs as [|t cs IH]; intros b k H Hm; simpl in Hm; [injection Hm as <-; exact I|].
  destruct H as [Ht Hcs]. destruct b.
  - destruct (isdigit t) eqn:Hd.
    + destruct (nondigit_run_int t Ht Hd) as [e He]. rewrite He in Hm. discriminate.
    + destruct (map_outcome _ cs) as [r|e] eqn:Hr; [|discriminate].
      injection Hm as <-. split; [reflexivity|]. exact (IH false r Hcs eq_refl).
  - rewrite (digit_run_isdigit t Ht) in Hm.
    destruct (int_of_digits t) as [z|e]; [|discriminate].
    destruct (map_outcome _ cs) as [r|e] eqn:Hr; [|discriminate].
    injection Hm as <-. split; [reflexivity|]. exact (IH true r Hcs eq_refl).
Qed.

Lemma natural_key_alt (s : string) (k : list keyelt) : natural_key s = Ret k -> key_alt true k.
Proof. apply chunks_key_alt, split_digits_ok. Qed.

Lemma list_lt_alt (x : list keyelt) : forall b y, key_alt b x -> key_alt b y ->
  exists r, list_lt x y = Ret r.
Proof.
  induction x as [|a x IH]; intros b [|c y] Hx Hy; simpl; try (eexists; reflexivity).
  destruct a as [za|sa], c as [zc|sc]; simpl in Hx, Hy;
    destruct Hx as [Hb Hx], Hy as [Hb' Hy]; subst b; try discriminate.
  - simpl. destruct (Z.eqb za zc); [exact (IH _ _ Hx Hy)|eexists; reflexivity].
  - simpl. destruct (String.eqb sa sc); [exact (IH _ _ Hx Hy)|eexists; reflexivity].
Qed.

Lemma str_lt_asym (a : string) : forall b, str_lt a b = true -> str_lt b a = false.
Proof.
  induction a as [|x a IH]; intros [|y b] H; simpl in *; try discriminate; try reflexivity.
  destruct (Ascii.eqb_spec x y) as [->|Hne].
  - rewrite Ascii.eqb_refl. apply IH, H.
  - destruct (Ascii.eqb_spec y x) as [->|_]; [congruence|].
    apply Nat.ltb_lt in H. apply Nat.ltb_ge. lia.
Qed.

Lemma list_lt_asym (x : list keyelt) : forall y, list_lt x y = Ret true -> list_lt y x = Ret false.
Proof.
  induction x as [|a x IH]; intros [|b y] H; simpl in *; try discriminate; try reflexivity.
  destruct a as [za|sa], b as [zb|sb]; simpl in *; try discriminate.
  - destruct (Z.eqb_spec za zb) as [<-|Hne]; [rewrite Z.eqb_refl; apply IH, H|].
    assert (Hne' : (zb =? za) = false) by (apply Z.eqb_neq; congruence). rewrite Hne'.
    injection H as H. apply Z.ltb_lt in H. f_equal. apply Z.ltb_ge. lia.
  - destruct (String.eqb_spec sa sb) as [<-|Hne]; [rewrite String.eqb_refl; apply IH, H|].
    assert (Hne' : String.eqb sb sa = false) by (apply String.eqb_neq; congruence). rewrite Hne'.
    injection H as H. f_equal. apply str_lt_asym, H.
Qed.

Lemma sorted_by_snoc {Y} (R : Y -> Y -> Prop) (l : list Y) (a : Y) :
  sorted_by R l -> (forall z, last l = Some z -> R z a) -> sorted_by R (l ++ [a]).
Proof.
  induction l as [|x l IH]; intros Hs Hl; simpl; [exact I|].
  destruct l as [|y l].
  - simpl. split; [apply Hl; reflexivity|exact I].
  - destruct Hs as [Hxy Hs]. split; [exact Hxy|]. apply IH; [exact Hs|].
    intros z Hz. apply Hl. rewrite last_cons_cons. exact Hz.
Qed.

Lemma sorted_by_rev {Y} (R : Y -> Y -> Prop) (l : list Y) :
  sorted_by R l -> sorted_by (fun a b => R b a) (List.rev l).
Proof.
  induction l as [|x l IH]; intros Hs; simpl; [exact I|].
  apply sorted_by_snoc.
  - apply IH. destruct l; [exact I|]. exact (proj2 Hs).
  - intros z Hz. destruct l as [|y l]; [discriminate|].
    simpl in Hz. rewrite last_snoc in Hz. injection Hz as <-. exact (proj1 Hs).
Qed.

Lemma sorted_by_map {Y Z} (R : Y -> Y -> Prop) (R' : Z -> Z -> Prop) (Q : Y -> Prop) (f : Y -> Z)
    (l : list Y) :
  (forall a b, Q a -> Q b -> R a b -> R' (f a) (f b)) ->
  Forall Q l -> sorted_by R l -> sorted_by R' (map f l).
Proof.
  intros Himp. induction l as [|a l IH]; intros Hq Hs; simpl; [exact I|].
  inversion Hq as [|? ? Ha Hl]; subst.
  destruct l as [|b l]; simpl; [exact I|].
  inversion Hl as [|? ? Hb _]; subst.
  destruct Hs as [Hab Hs]. split; [exact (Himp a b Ha Hb Hab)|]. exact (IH Hl Hs).
Qed.

Section SortFacts.
Context {X : Type} (lt : X -> X -> outcome bool) (P : X -> Prop).
Hypothesis Htot : forall a b, P a -> P b -> exists r, lt a b = Ret r.
Hypothesis Hasym : forall a b, P a -> P b -> lt a b = Ret true -> lt b a = Ret false.

Local Abbreviation asc := (fun a b => lt b a = Ret false).

Lemma insert_total (x : X) (l : list X) : P x -> Forall P l -> exists r, insert_sorted lt x l = Ret r.
Proof.
  intros Hx. induction l as [|y l IH]; intros Hl; simpl; [eexists; reflexivity|].
  inversion Hl as [|? ? Hy Hl']; subst.
  destruct (Htot x y Hx Hy) as [[|] ->]; [eexists; reflexivity|].
  destruct (IH Hl') as [r ->]. eexists; reflexivity.
Qed.

Lemma insert_perm (x : X) (l : list X) : forall r, insert_sorted lt x l = Ret r -> r ≡ₚ x :: l.
Proof.
  induction l as [|y l IH]; intros r H; simpl in H.
  - injection H as <-. reflexivity.
  - destruct (lt x y) as [[|]|e]; [injection H as <-; reflexivity| |discriminate].
    destruct (insert_sorted lt x l) as [r'|e] eqn:Hi; [|discriminate].
    injection H as <-. rewrite (IH r' eq_refl). apply Permutation_swap.
Qed.

Lemma insert_cons_sorted (x : X) (l : list X) : P x -> Forall P l -> forall r y,
  insert_sorted lt x l = Ret r -> sorted_by asc (y :: l) -> lt x y = Ret false ->
  sorted_by asc (y :: r).
Proof.
  intros Hx. induction l as [|z l IH]; intros Hl r y H Hs Hxy; simpl in H.
  - injection H as <-. simpl. tauto.
  - inversion Hl as [|? ? Hz Hl']; subst.
    destruct (lt x z) eqn:Hxz; [destruct x0|]; [| |discriminate].
    + injection H as <-. simpl in Hs |- *. destruct Hs as [Hyz Hs].
      repeat split; [exact Hxy|apply Hasym; assumption|exact Hs].
    + destruct (insert_sorted lt x l) as [r'|e] eqn:Hi; [|discriminate].
      injection H as <-. simpl in Hs. destruct Hs as [Hyz Hs].
      split; [exact Hyz|]. apply (IH Hl' r' z eq_refl Hs Hxz).
Qed.

Lemma insert_sorted_ok (x : X) (l : list X) (r : list X) : P x -> Forall P l ->
  insert_sorted lt x l = Ret r -> sorted_by asc l -> sorted_by asc r.
Proof.
  intros Hx Hl. destruct l as [|z l]; intros H Hs; simpl in H.
  - injection H as <-. exact I.
  - inversion Hl as [|? ? Hz Hl']; subst.
    destruct (lt x z) eqn:Hxz; [destruct x0|]; [| |discriminate].
    + injection H as <-. simpl. split; [apply Hasym; assumption|exact Hs].
    + destruct (insert_sorted lt x l) as [r'|e] eqn:Hi; [|discriminate].
      injection H as <-. apply (insert_cons_sorted x l Hx Hl' r' z Hi Hs Hxz).
Qed.

Lemma sort_aux_ok (l : list X) : Forall P l -> forall acc, Forall P acc -> sorted_by asc acc ->
  exists r, sort_aux lt acc l = Ret r /\ r ≡ₚ acc ++ l /\ sorted_by asc r.
Proof.
  induction l as [|x l IH]; intros Hl acc Hacc Hs; simpl.
  - exists acc. rewrite app_nil_r. split; [reflexivity|split; [reflexivity|exact Hs]].
  - inversion Hl as [|? ? Hx Hl']; subst.
    destruct (insert_total x acc Hx Hacc) as [acc' Hi]. rewrite Hi.
    assert (Hacc' : Forall P acc').
    { rewrite (insert_perm x acc acc' Hi). constructor; assumption. }
    destruct (IH Hl' acc' Hacc' (insert_sorted_ok x acc acc' Hx Hacc Hi Hs)) as (r & Hr & Hp & Hs').
    exists r. split; [exact Hr|]. split; [|exact Hs'].
    rewrite Hp, (insert_perm x acc acc' Hi). simpl. apply Permutation_middle.
Qed.

Lemma py_sorted_ok (rev : bool) (l : list X) : Forall P l ->
  exists r, py_sorted lt rev l = Ret r /\ r ≡ₚ l /\ in_order lt rev r.
Proof.
  intros Hl. unfold py_sorted, in_order. destruct rev.
  - assert (Hrl : Forall P (List.rev l)) by (apply Forall_rev; exact Hl).
    destruct (sort_aux_ok (List.rev l) Hrl [] (List.Forall_nil _) I) as (r & Hr & Hp & Hs). rewrite Hr.
    exists (List.rev r). split; [reflexivity|]. split.
    + rewrite <- Permutation_rev, Hp. simpl. symmetry. apply Permutation_rev.
    + apply (sorted_by_rev _ _ Hs).
  - destruct (sort_aux_ok l Hl [] (List.Forall_nil _) I) as (r & Hr & Hp & Hs). exists r.
    split; [exact Hr|]. split; [exact Hp|exact Hs].
Qed.

End SortFacts.

Lemma map_outcome_pairs {X K} (key : X -> outcome K) (l : list X) :
  (forall x, In x l -> exists k, key x = Ret k) ->
  exists kl, map_outcome (fun x => match key x with Ret k => Ret (k, x) | Raise e => Raise e end) l = Ret kl
             /\ map snd kl = l /\ Forall (fun p => key (snd p) = Ret (fst p)) kl.
Proof.
  induction l as [|x l IH]; intros Hk; simpl; [exists []; split; [reflexivity|split; [reflexivity|constructor]]|].
  destruct (Hk x (or_introl eq_refl)) as [k Hx]. rewrite Hx.
  destruct IH as (kl & Hkl & Hs & Hf); [intros y Hy; apply Hk; right; exact Hy|].
  rewrite Hkl. exists ((k, x) :: kl). split; [reflexivity|]. split; [simpl; rewrite Hs; reflexivity|].
  constructor; [exact Hx|exact Hf].
Qed.

Lemma map_outcome_raise {X Y} (f : X -> outcome Y) (l : list X) (x : X) (e : pyval) :
  In x l -> f x = Raise e -> exists e', map_outcome f l = Raise e'.
Proof.
  induction l as [|y l IH]; intros Hin Hf; [destruct Hin|]. simpl.
  destruct Hin as [<-|Hin]; [rewrite Hf; eexists; reflexivity|].
  destruct (f y) as [z|e']; [|eexists; reflexivity].
  destruct (IH Hin Hf) as [e' ->]. eexists; reflexivity.
Qed.

Section KeySort.
Context {X K : Type} (key : X -> outcome K) (lt : K -> K -> outcome bool).
Hypothesis Hktot : forall x y kx ky, key x = Ret kx -> key y = Ret ky -> exists r, lt kx ky = Ret r.
Hypothesis Hkasym : forall x y kx ky, key x = Ret kx -> key y = Ret ky ->
  lt kx ky = Ret true -> lt ky kx = Ret false.

Lemma py_sorted_key_ok (rev : bool) (l : list X) :
  (forall x, In x l -> exists k, key x = Ret k) ->
  exists r, py_sorted_key key lt rev l = Ret r /\ r ≡ₚ l /\ in_key_order key lt rev r.
Proof.
  intros Hk. destruct (map_outcome_pairs key l Hk) as (kl & Hkl & Hs & Hf).
  set (P := fun p : K * X => key (snd p) = Ret (fst p)).
  destruct (py_sorted_ok (fun a b : K * X => lt (fst a) (fst b)) P
              (fun a b Ha Hb => Hktot _ _ _ _ Ha Hb) (fun a b Ha Hb => Hkasym _ _ _ _ Ha Hb) rev kl Hf)
    as (r & Hr & Hp & Ho).
  unfold py_sorted_key. rewrite Hkl, Hr. exists (map snd r). split; [reflexivity|]. split.
  - rewrite <- Hs. apply Permutation_map, Hp.
  - assert (Hfr : Forall P r) by (rewrite Hp; exact Hf).
    unfold in_key_order. unfold in_order in Ho.
    refine (sorted_by_map _ _ P snd r _ Hfr Ho).
    intros a b Ha Hb Hab. unfold P in Ha, Hb. simpl. rewrite Ha, Hb. exact Hab.
Qed.

End KeySort.

Lemma key_fn_total (natural : bool) (x y : string) (kx ky : sortkey) :
  key_fn natural x = Ret kx -> key_fn natural y = Ret ky -> exists r, sortkey_lt kx ky = Ret r.
Proof.
  unfold key_fn. destruct natural.
  - destruct (natural_key x) as [a|e] eqn:Ha; [|discriminate].
    destruct (natural_key y) as [b|e] eqn:Hb; [|discriminate].
    intros Hx Hy. injection Hx as <-. injection Hy as <-. simpl.
    exact (list_lt_alt a true b (natural_key_alt x a Ha) (natural_key_alt y b Hb)).
  - intros Hx Hy. injection Hx as <-. injection Hy as <-. eexists; reflexivity.
Qed.

Lemma key_fn_asym (natural : bool) (x y : string) (kx ky : sortkey) :
  key_fn natural x = Ret kx -> key_fn natural y = Ret ky ->
  sortkey_lt kx ky = Ret true -> sortkey_lt ky kx = Ret false.
Proof.
  unfold key_fn. destruct natural.
  - destruct (natural_key x) as [a|e]; [|discriminate].
    destruct (natural_key y) as [b|e]; [|discriminate].
    intros Hx Hy. injection Hx as <-. injection Hy as <-. simpl. apply list_lt_asym.
  - intros Hx Hy. injection Hx as <-. injection Hy as <-. simpl.
    intros H. injection H as H. f_equal. apply str_lt_asym, H.
Qed.

Section ExecuteFacts.
Context (join : string -> string -> string) (isdir isfile : string -> bool).
Context (listdir : string -> outcome (list string)) (image_extensions : list string) (sort_order : string).

Local Abbreviation run := (execute join isdir isfile listdir image_extensions sort_order).

Lemma execute_listing (directory_path : string) (entries : list string)
    (Hdir : isdir directory_path = true) (Hls : listdir directory_path = Ret entries)
    (Hkeys : forall e, In e entries ->
       (exists k, key_fn (String.prefix "natural" sort_order) e = Ret k)
       /\ (exists k, key_fn (String.prefix "natural" sort_order) (join directory_path e) = Ret k)) :
  let natural := String.prefix "natural" sort_order in
  let rev := endswith "desc" sort_order in
  exists files dirs,
    run directory_path
    = Ret (PTuple [PList (map PStr (map (join directory_path)
                     (List.filter (fun f => existsb (String.eqb (ext_of f)) image_extensions) files)));
                   PList (map PStr dirs)])
    /\ files ≡ₚ List.filter (fun e => isfile (join directory_path e)) entries
    /\ dirs ≡ₚ map (join directory_path)
                 (List.filter (fun e => negb (isfile (join directory_path e))
                                        && isdir (join directory_path e)) entries)
    /\ in_key_order (key_fn natural) sortkey_lt rev files
    /\ in_key_order (key_fn natural) sortkey_lt rev dirs.
Proof.
  intros natural rev. unfold execute. rewrite Hdir, Hls. simpl negb. cbv iota.
  fold natural rev.
  destruct (py_sorted_key_ok (key_fn natural) sortkey_lt (key_fn_total natural) (key_fn_asym natural) rev
              (List.filter (fun e => isfile (join directory_path e)) entries)) as (fs & Hf & Hfp & Hfo).
  { intros x Hx. apply List.filter_In in Hx as [Hx _]. exact (proj1 (Hkeys x Hx)). }
  destruct (py_sorted_key_ok (key_fn natural) sortkey_lt (key_fn_total natural) (key_fn_asym natural) rev
              (map (join directory_path)
                 (List.filter (fun e => negb (isfile (join directory_path e))
                                        && isdir (join directory_path e)) entries))) as (ds & Hd & Hdp & Hdo).
  { intros x Hx. apply in_map_iff in Hx as (e & <- & He). apply List.filter_In in He as [He _].
    exact (proj2 (Hkeys e He)). }
  rewrite Hf, Hd. exists fs, ds. repeat split; assumption.
Qed.

Lemma execute_key_error (directory_path : string) (entries : list string) (e : string) (err : pyval)
    (Hdir : isdir directory_path = true) (Hls : listdir directory_path = Ret entries)
    (Hin : In e entries) (Hf : isfile (join directory_path e) = true)
    (Hk : key_fn (String.prefix "natural" sort_order) e = Raise err) :
  exists err', run directory_path = Raise err'.
Proof.
  unfold execute. rewrite Hdir, Hls. simpl negb. cbv iota. unfold py_sorted_key.
  destruct (map_outcome_raise
              (fun x => match key_fn (String.prefix "natural" sort_order) x with
                        | Ret k => Ret (k, x) | Raise e0 => Raise e0 end)
              (List.filter (fun e0 => isfile (join directory_path e0)) entries) e err)
    as [err' ->]; [apply List.filter_In; split; assumption|rewrite Hk; reflexivity|].
  exists err'. reflexivity.
Qed.

End ExecuteFacts.

(** Two keys built by [_natural_key] always compare: they alternate text
    and integer parts in the same phase, so [<] never meets an [int] and a
    [str] at the same position. *)
Theorem natural_key_comparisons_never_raise (a b : string) (ka kb : list keyelt)
    (Ha : natural_key a = Ret ka) (Hb : natural_key b = Ret kb) :
  exists r, list_lt ka kb = Ret r.
Proof. exact (list_lt_alt ka true kb (natural_key_alt a ka Ha) (natural_key_alt b kb Hb)). Qed.

(** On a listable directory whose entries all have keys, [DiscoverTask.execute]
    returns the joined image paths (extension in [image_extensions], lower-cased)
    among the files and the joined subdirectories that are not files, each a
    permutation of what the listing holds and in the order [sort_order] asks. *)
Theorem discover_execute_listing (join : string -> string -> string) (isdir isfile : string -> bool)
    (listdir : string -> outcome (list string)) (image_extensions : list string) (sort_order : string)
    (directory_path : string) (entries : list string)
    (Hdir : isdir directory_path = true) (Hls : listdir directory_path = Ret entries)
    (Hkeys : forall e, In e entries ->
       (exists k, key_fn (String.prefix "natural" sort_order) e = Ret k)
       /\ (exists k, key_fn (String.prefix "natural" sort_order) (join directory_path e) = Ret k)) :
  let natural := String.prefix "natural" sort_order in
  let rev := endswith "desc" sort_order in
  exists files dirs,
    execute join isdir isfile listdir image_extensions sort_order directory_path
    = Ret (PTuple [PList (map PStr (map (join directory_path)
                     (List.filter (fun f => existsb (String.eqb (ext_of f)) image_extensions) files)));
                   PList (map PStr dirs)])
    /\ files ≡ₚ List.filter (fun e => isfile (join directory_path e)) entries
    /\ dirs ≡ₚ map (join directory_path)
                 (List.filter (fun e => negb (isfile (join directory_path e))
                                        && isdir (join directory_path e)) entries)
    /\ in_key_order (key_fn natural) sortkey_lt rev files
    /\ in_key_order (key_fn natural) sortkey_lt rev dirs.
Proof. exact (execute_listing join isdir isfile listdir image_extensions sort_order directory_path entries Hdir Hls Hkeys). Qed.

End DiscoverExecFacts.

Module WorkerFacts2.
Import Worker.

Lemma add_all_log (l : list pyval) : forall log, add_all l log = (Ret tt, log ++ map EAddNext l).
Proof.
  induction l as [|r l IH]; intros log; simpl; [rewrite app_nil_r; reflexivity|].
  unfold bind, emit. rewrite IH, <- app_assoc. reflexivity.
Qed.

(** One iteration under the Discover entry of [PIPELINE_CONFIG]
    (successor present, no transform, no rejection check, pending queue). *)
Lemma loop_body_pending (ex : pyval -> outcome pyval) (verbose : bool) (item : pyval)
    (imgs dirs : list pyval) :
  ex item = Ret (PTuple [PList imgs; PList dirs]) ->
  events_of (loop_body ex true None None true true verbose item)
  = [EFinish item (Z.of_nat (length imgs) + Z.of_nat (length dirs))]
    ++ (if verbose then [EVerbose item] else [])
    ++ (match dirs with [] => [] | _ => [EPending dirs] end)
    ++ map EAddNext imgs.
Proof.
  intros H. unfold events_of, loop_body, try_except, bind, lift, ret, emit.
  rewrite H. simpl.
  destruct verbose, dirs as [|d dirs]; simpl; rewrite add_all_log; simpl; reflexivity.
Qed.

Lemma loop_body_plain_list (ex : pyval -> outcome pyval) (hpq hpa verbose : bool) (item : pyval)
    (l : list pyval) :
  ex item = Ret (PList l) ->
  events_of (loop_body ex true None None hpq hpa verbose item)
  = [EFinish item (Z.of_nat (length l))]
    ++ (if verbose then [EVerbose item] else [])
    ++ map EAddNext l.
Proof.
  intros H. unfold events_of, loop_body, try_except, bind, lift, ret, emit.
  rewrite H. simpl.
  destruct verbose; simpl; rewrite add_all_log; simpl; reflexivity.
Qed.

End WorkerFacts2.

Module DiscoverWorkerFacts.
Import Worker DiscoverExec DiscoverExecFacts WorkerFacts2.

Section DiscoverWorker.
Context (join : string -> string -> string) (isdir isfile : string -> bool).
Context (listdir : string -> outcome (list string)) (image_extensions : list string) (sort_order : string).
Context (verbose : bool).

(** A path that is not a directory or cannot be listed finishes in the
    discover worker with count 0 and forwards nothing. *)
Theorem discover_worker_unlistable (d : string)
    (H : isdir d = false \/ exists e, listdir d = Raise e) :
  events_of (loop_body (execute_item join isdir isfile listdir image_extensions sort_order)
                       true None None true true verbose (PStr d))
  = [EFinish (PStr d) 0] ++ (if verbose then [EVerbose (PStr d)] else []).
Proof.
  rewrite (loop_body_plain_list _ true true verbose (PStr d) []); [simpl; rewrite app_nil_r; reflexivity|].
  simpl. unfold execute. destruct H as [->|[e He]]; [reflexivity|].
  destruct (isdir d); simpl; [rewrite He|]; reflexivity.
Qed.

(** In the discover worker, a listable directory whose entries all have
    sort keys finishes with the number of images plus subdirectories,
    pushes the subdirectories to the pending queue when there are any, and
    forwards each image path, in sorted order. *)
Theorem discover_worker_listing (d : string) (entries : list string)
    (Hdir : isdir d = true) (Hls : listdir d = Ret entries)
    (Hkeys : forall e, In e entries ->
       (exists k, key_fn (String.prefix "natural" sort_order) e = Ret k)
       /\ (exists k, key_fn (String.prefix "natural" sort_order) (join d e) = Ret k)) :
  let natural := String.prefix "natural" sort_order in
  let rev := endswith "desc" sort_order in
  exists files dirs,
    let imgs := map (join d) (List.filter (fun f => existsb (String.eqb (ext_of f)) image_extensions) files) in
    events_of (loop_body (execute_item join isdir isfile listdir image_extensions sort_order)
                         true None None true true verbose (PStr d))
    = [EFinish (PStr d) (Z.of_nat (length imgs) + Z.of_nat (length dirs))]
      ++ (if verbose then [EVerbose (PStr d)] else [])
      ++ (match dirs with [] => [] | _ => [EPending (map PStr dirs)] end)
      ++ map (fun f => EAddNext (PStr f)) imgs
    /\ files ≡ₚ List.filter (fun e => isfile (join d e)) entries
    /\ dirs ≡ₚ map (join d) (List.filter (fun e => negb (isfile (join d e)) && isdir (join d e)) entries)
    /\ in_key_order (key_fn natural) sortkey_lt rev files
    /\ in_key_order (key_fn natural) sortkey_lt rev dirs.
Proof.
  intros natural rev.
  destruct (execute_listing join isdir isfile listdir image_extensions sort_order d entries Hdir Hls Hkeys)
    as (files & dirs & Hex & Hrest).
  exists files, dirs. simpl. split; [|exact Hrest].
  rewrite (loop_body_pending _ verbose (PStr d) _ (map PStr dirs) Hex).
  rewrite !length_map, map_map. destruct dirs; reflexivity.
Qed.

(** With a natural sort order, a file name whose digit run is accepted by
    [str.isdigit] but rejected by [int] (a superscript digit) makes the
    whole directory fail in the discover worker: nothing is finished or
    forwarded. *)
Theorem discover_worker_key_error_fails_directory (d : string) (entries : list string)
    (e : string) (err : pyval)
    (Hdir : isdir d = true) (Hls : listdir d = Ret entries)
    (Hin : In e entries) (Hf : isfile (join d e) = true)
    (Hnat : String.prefix "natural" sort_order = true) (Hk : natural_key e = Raise err) :
  events_of (loop_body (execute_item join isdir isfile listdir image_extensions sort_order)
                       true None None true true verbose (PStr d))
  = [EFail (PStr d)].
Proof.
  assert (Hk' : key_fn (String.prefix "natural" sort_order) e = Raise err)
    by (rewrite Hnat; unfold key_fn; rewrite Hk; reflexivity).
  destruct (execute_key_error join isdir isfile listdir image_extensions sort_order d entries e err
              Hdir Hls Hin Hf Hk') as [err' Hex].
  unfold events_of, loop_body, try_except, bind, lift, ret, emit. simpl. rewrite Hex. reflexivity.
Qed.

End DiscoverWorker.
End DiscoverWorkerFacts.

Module WorkerFacts3.
Import Worker WorkerEvents WorkerFacts2.


Ltac open_body :=
  repeat (first [ rewrite add_all_log
                | progress simpl
                | match goal with |- context [match ?x with _ => _ end] =>
                    lazymatch x with context [add_all] => fail | context [match _ with _ => _ end] => fail | context [negb] => fail
                              | _ => destruct x end end ]).

Lemma loop_body_rejected ex nt tr f hpq hpa vb item r v :
  ex item = Ret r -> f r = Ret v -> truthy v = true ->
  events_of (loop_body ex nt tr (Some f) hpq hpa vb item) = [EReject item].
Proof.
  intros H1 H2 H3. unfold events_of, loop_body, try_except, bind, lift, ret, emit.
  rewrite H1. simpl. rewrite H2, H3. simpl. rewrite andb_false_r. reflexivity.
Qed.

Lemma addnext_not_reject (l : list pyval) : forallb not_reject (map EAddNext l) = true.
Proof. induction l; simpl; auto. Qed.

Ltac no_reject :=
  open_body; rewrite ?forallb_app, ?addnext_not_reject; reflexivity.

Lemma loop_body_reject_shape ex nt tr cr hpq hpa vb item :
  events_of (loop_body ex nt tr cr hpq hpa vb item) = [EReject item]
  \/ forallb not_reject (events_of (loop_body ex nt tr cr hpq hpa vb item)) = true.
Proof.
  destruct (ex item) as [r|e] eqn:H1.
  - destruct cr as [f|].
    + destruct (f r) as [v|e] eqn:H2.
      * destruct (truthy v) eqn:H3; [left; apply (loop_body_rejected _ _ _ _ _ _ _ _ r v H1 H2 H3)|].
        right. unfold events_of, loop_body, try_except, bind, lift, ret, emit.
        rewrite H1. simpl. rewrite H2, H3. simpl. no_reject.
      * right. unfold events_of, loop_body, try_except, bind, lift, ret, emit.
        rewrite H1. simpl. rewrite H2. no_reject.
    + right. unfold events_of, loop_body, try_except, bind, lift, ret, emit.
      rewrite H1. simpl. no_reject.
  - right. unfold events_of, loop_body, try_except, bind, lift, ret, emit.
    rewrite H1. no_reject.
Qed.

(** A worker iteration that rejects its item does nothing else: its only
    event is the rejection of that item. *)
Theorem worker_rejection_is_final ex nt tr cr hpq hpa vb item x
    (H : In (EReject x) (events_of (loop_body ex nt tr cr hpq hpa vb item))) :
  events_of (loop_body ex nt tr cr hpq hpa vb item) = [EReject item].
Proof.
  destruct (loop_body_reject_shape ex nt tr cr hpq hpa vb item) as [E|E]; [exact E|].
  exfalso. apply forallb_forall with (x := EReject x) in E; [discriminate|exact H].
Qed.

(** A stage without transform or rejection check that returns a list
    finishes its item with the length of the list and forwards every
    element, in order, whatever the pending-queue settings. *)
Theorem worker_list_fanout ex hpq hpa vb item l (H : ex item = Ret (PList l)) :
  events_of (loop_body ex true None None hpq hpa vb item)
  = [EFinish item (Z.of_nat (length l))] ++ (if vb then [EVerbose item] else []) ++ map EAddNext l.
Proof. exact (loop_body_plain_list ex hpq hpa vb item l H). Qed.
End WorkerFacts3.

Module WriteRoundTrip.
Import Worker Write.

Section Frame.
Context {DT : Type} (render_datetime : DT -> string).
Context (input_dir output_dir : option string) (output_format output_suffix error_suffix : string).
Context (relpath join : string -> string -> string).
Context (format : string -> list (string * string) -> fmt_result).
Context (env : os_env).

Local Abbreviation run := (execute render_datetime input_dir output_dir output_format output_suffix
                         error_suffix relpath join format env).
Local Abbreviation out_path := (output_file input_dir output_dir output_suffix relpath join).
Local Abbreviation err_path := (error_file input_dir output_dir error_suffix relpath join).
Local Abbreviation fmt := (formatted_content render_datetime output_format format).

(** [WriteTask.execute] changes no file but the item's output artifact and
    its error artifact. *)
Theorem write_touches_only_its_artifacts (files : fs) (it : @item DT) (k : string)
    (Hof : k <> out_path (fst (fst (unpack it)))) (Hef : k <> err_path (fst (fst (unpack it)))) :
  snd (run files it) !! k = files !! k.
Proof.
  unfold execute. destruct (unpack it) as [[p c] md]. simpl in Hof, Hef.
  destruct c as [content|msg]; simpl.
  - destruct (makedirs _ _ _); simpl; [reflexivity|].
    destruct (fmt md content) as [text|e]; simpl; [|reflexivity].
    destruct (open_error _ _ _); simpl; [reflexivity|].
    case_decide; [destruct (remove_error _ _ _)|].
    + apply lookup_insert_ne. congruence.
    + rewrite lookup_delete_ne by congruence. apply lookup_insert_ne. congruence.
    + apply lookup_insert_ne. congruence.
  - destruct (makedirs _ _ _); simpl; [reflexivity|].
    destruct (open_error _ _ _); simpl; [reflexivity|].
    apply lookup_insert_ne. congruence.
Qed.


(** When the template misses a key on both attempts and the directory and
    the file can be created, [WriteTask.execute] writes the raw content
    unchanged to the output artifact and returns its path. *)
Theorem write_keyerror_writes_content_verbatim (files : fs) (it : @item DT) (p c : string)
    (md : option (@Metadata DT))
    (Hu : unpack it = (p, PContent c, md))
    (Hk : forall kwargs, format output_format kwargs = FKeyError)
    (Hmk : makedirs env files (PathOps.dirname (out_path p)) = None)
    (Hop : open_error env files (out_path p) = None)
    (Hne : out_path p <> err_path p) :
  fst (run files it) = Ret (out_path p) /\ snd (run files it) !! out_path p = Some c.
Proof.
  unfold execute. rewrite Hu, Hmk. unfold formatted_content. rewrite !Hk. cbv beta iota zeta. rewrite Hop. cbn [fst snd].
  split; [reflexivity|].
  case_decide; [destruct (remove_error _ _ _)|].
  - apply lookup_insert_eq.
  - rewrite lookup_delete_ne by congruence. apply lookup_insert_eq.
  - apply lookup_insert_eq.
Qed.

(** Where [os.makedirs], [open] and [os.remove] succeed and the artifact
    directories are named: a successful write of content leaves the formatted
    text in the output artifact and no error artifact; an error value is
    written, with a newline, to the error artifact. *)
Theorem write_lifecycle_when_file_operations_succeed (files : fs) (it : @item DT) (p : string)
    (md : option (@Metadata DT))
    (Hmk : forall fs0 d, makedirs_error env fs0 d = None)
    (Hop : forall fs0 q, open_error env fs0 q = None)
    (Hrm : forall fs0 q, remove_error env fs0 q = None) :
  (forall c text,
     unpack it = (p, PContent c, md) -> PathOps.dirname (out_path p) <> "" ->
     fmt md c = Ret text -> out_path p <> err_path p ->
     fst (run files it) = Ret (out_path p)
     /\ snd (run files it) !! out_path p = Some text /\ snd (run files it) !! err_path p = None)
  /\ (forall msg,
       unpack it = (p, PError msg, md) -> PathOps.dirname (err_path p) <> "" ->
       run files it = (Ret (err_path p),
                       <[err_path p := (msg ++ String (Ascii.ascii_of_nat 10) EmptyString)%string]> files)).
Proof.
  split.
  - intros c text Hu Hd Ht Hne. unfold execute. rewrite Hu. unfold makedirs.
    apply String.eqb_neq in Hd. rewrite Hd, Hmk, Ht, Hop.
    case_decide as Hs; [rewrite Hrm|]; simpl.
    + split; [reflexivity|]. split; [rewrite lookup_delete_ne by congruence; apply lookup_insert_eq|].
      apply lookup_delete_eq.
    + split; [reflexivity|]. split; [apply lookup_insert_eq|]. apply eq_None_not_Some. exact Hs.
  - intros msg Hu Hd. unfold execute. rewrite Hu. unfold makedirs.
    apply String.eqb_neq in Hd. rewrite Hd, Hmk, Hop. reflexivity.
Qed.

End Frame.

Section RoundTrip.
Context {DT : Type} (render_datetime : DT -> string).
Context (input_dir output_dir : option string) (output_format : string).
Context (relpath join : string -> string -> string).
Context (format : string -> list (string * string) -> fmt_result).
Context (env : os_env).

(** The describe pipeline's suffixes: [WriteTask]'s defaults and the
    [output_suffix_pattern] given to [SkipCheckTask]. *)
Local Abbreviation run := (execute render_datetime input_dir output_dir output_format ".txt"
                         ".error.txt" relpath join format env).
Local Abbreviation out_path := (output_file input_dir output_dir ".txt" relpath join).
Local Abbreviation err_path := (error_file input_dir output_dir ".error.txt" relpath join).
Local Abbreviation fmt := (formatted_content render_datetime output_format format).
Local Abbreviation skip skip_all retry_failed check_input_exists files :=
  (SkipCheck.execute input_dir output_dir skip_all retry_failed ".txt" check_input_exists relpath join
     (SkipCheck.exists_in files)).

Lemma file_for_out (p : string) :
  SkipCheck.file_for input_dir output_dir relpath join p ".txt" = out_path p.
Proof. reflexivity. Qed.

Lemma file_for_err (p : string) :
  SkipCheck.file_for input_dir output_dir relpath join p (SkipCheck.error_suffix ".txt") = err_path p.
Proof. reflexivity. Qed.

(** A write of content that returns the output path has put the formatted
    text there. *)
Lemma success_out (files : fs) (it : @item DT) (p c text : string) (md : option (@Metadata DT))
    (Hu : unpack it = (p, PContent c, md)) (Ht : fmt md c = Ret text)
    (Hok : fst (run files it) = Ret (out_path p)) (Hne : out_path p <> err_path p) :
  snd (run files it) !! out_path p = Some text.
Proof.
  revert Hok. unfold execute. rewrite Hu.
  destruct (makedirs _ _ _); simpl; [discriminate|]. rewrite Ht.
  destruct (open_error _ _ _); simpl; [discriminate|]. intros _.
  case_decide; [destruct (remove_error _ _ _)|].
  - apply lookup_insert_eq.
  - rewrite lookup_delete_ne by congruence. apply lookup_insert_eq.
  - apply lookup_insert_eq.
Qed.

Lemma read_back_success (files : fs) (it : @item DT) (p c text : string)
    (md : option (@Metadata DT))
    (Hu : unpack it = (p, PContent c, md)) (Ht : fmt md c = Ret text)
    (Hok : fst (run files it) = Ret (out_path p)) (Hne : out_path p <> err_path p) :
  ContextRead.read_description input_dir output_dir relpath join (snd (run files it)) p true
  = Some (ContextRead.py_strip (ContextRead.universal_newlines text)).
Proof.
  pose proof (success_out files it p c text md Hu Ht Hok Hne) as Ho.
  unfold ContextRead.read_description.
  change (match str_truthy input_dir, str_truthy output_dir with
          | Some idir, Some odir => join odir (relpath p idir ++ ".txt")%string
          | _, _ => (p ++ ".txt")%string end) with (out_path p).
  rewrite Ho. reflexivity.
Qed.

(** What a successful [WriteTask.execute] writes for an image (it returns the
    output path), [ContextTask._read_description] reads back from the same
    output tree: the formatted text with its line endings normalised and
    surrounding whitespace stripped. *)
Theorem written_description_reads_back (files : fs) (it : @item DT) (p c text : string)
    (md : option (@Metadata DT))
    (Hu : unpack it = (p, PContent c, md)) (Ht : fmt md c = Ret text)
    (Hok : fst (run files it) = Ret (out_path p)) (Hne : out_path p <> err_path p) :
  ContextRead.read_description input_dir output_dir relpath join (snd (run files it)) p true
  = Some (ContextRead.py_strip (ContextRead.universal_newlines text)).
Proof. exact (read_back_success files it p c text md Hu Ht Hok Hne). Qed.

(** A successfully written description that is only whitespace reads back
    as the empty string, and [ContextTask.execute] then treats the image as
    one without a description: [(input_path, "", [])]. *)
Theorem blank_description_reads_as_missing (files : fs) (it : @item DT) (p c text : string)
    (md : option (@Metadata DT))
    (get_image_metadata : string -> Context.Metadata) (normpath : string -> string)
    (collect_images : string -> list string) (max_context_items : Z)
    (Hu : unpack it = (p, PContent c, md)) (Ht : fmt md c = Ret text)
    (Hok : fst (run files it) = Ret (out_path p)) (Hne : out_path p <> err_path p)
    (Hblank : ContextRead.py_strip (ContextRead.universal_newlines text) = "") :
  Context.execute
    (fun q => ContextRead.read_description input_dir output_dir relpath join (snd (run files it)) q true)
    get_image_metadata normpath collect_images max_context_items p
  = PTuple [PStr p; PStr ""; PList []].
Proof.
  unfold Context.execute. rewrite (read_back_success files it p c text md Hu Ht Hok Hne), Hblank.
  reflexivity.
Qed.

(** After a successful write of content with the describe pipeline's
    suffixes, [SkipCheckTask.execute] on the same image reports it as done,
    whether or not failed items are retried, unless [skip_all] is set, in
    which case it reports it as to be processed. *)
Theorem written_description_is_skipped (files : fs) (it : @item DT) (p c text : string)
    (md : option (@Metadata DT)) (skip_all retry_failed check_input_exists : bool)
    (Hu : unpack it = (p, PContent c, md)) (Ht : fmt md c = Ret text)
    (Hok : fst (run files it) = Ret (out_path p)) (Hne : out_path p <> err_path p) :
  skip skip_all retry_failed check_input_exists (snd (run files it)) p = (negb skip_all, p).
Proof.
  pose proof (success_out files it p c text md Hu Ht Hok Hne) as Ho.
  unfold SkipCheck.execute. destruct skip_all; [reflexivity|]. rewrite file_for_out.
  assert (He : SkipCheck.exists_in (snd (run files it)) (out_path p) = true)
    by (unfold SkipCheck.exists_in; rewrite Ho; reflexivity).
  rewrite He. destruct check_input_exists; reflexivity.
Qed.

(** After [WriteTask.execute] records an error value (it returns the error
    artifact's path), [SkipCheckTask.execute] in describe mode skips the
    image exactly when [skip_all] is unset and either [retry_failed] is
    unset or an output artifact was already there. *)
Theorem error_artifact_skipped_unless_retry (files : fs) (it : @item DT) (p msg : string)
    (md : option (@Metadata DT)) (skip_all retry_failed : bool)
    (Hu : unpack it = (p, PError msg, md))
    (Hok : fst (run files it) = Ret (err_path p)) (Hne : out_path p <> err_path p) :
  skip skip_all retry_failed false (snd (run files it)) p
  = (negb skip_all && (SkipCheck.exists_in files (out_path p) || negb retry_failed), p).
Proof.
  revert Hok. unfold execute. rewrite Hu.
  destruct (makedirs _ _ _); simpl; [discriminate|].
  destruct (open_error _ _ _); simpl; [discriminate|]. intros _.
  unfold SkipCheck.execute. destruct skip_all; [reflexivity|].
  rewrite file_for_out, file_for_err. unfold SkipCheck.exists_in.
  rewrite lookup_insert_ne by congruence. rewrite lookup_insert_eq.
  destruct (bool_decide (is_Some (files !! out_path p))), retry_failed; reflexivity.
Qed.

End RoundTrip.
End WriteRoundTrip.

Module SkipCheckWorker.
Import Worker.

Section Config.
Context (input_dir output_dir : option string) (skip_all retry_failed : bool).
Context (output_suffix : string) (check_input_exists : bool).
Context (relpath join : string -> string -> string) (exists_ : string -> bool).
Context (verbose : bool).

Local Abbreviation exec :=
  (SkipCheck.execute_item input_dir output_dir skip_all retry_failed output_suffix
     check_input_exists relpath join exists_).

(** One worker iteration under the SkipCheck entry of [PIPELINE_CONFIG]:
    [transform = result[1]], [check_rejection = result[0]], no pending queue. *)
Theorem skip_check_iteration (p : string) :
  let skipped := fst (SkipCheck.execute input_dir output_dir skip_all retry_failed
                        output_suffix check_input_exists relpath join exists_ p) in
  events_of (loop_body exec true (Some SkipCheck.second_field) (Some Inputs.first_field)
               false false verbose (PStr p))
  = if skipped then [EReject (PStr p)]
    else [EFinish (PStr p) 1] ++ (if verbose then [EVerbose (PStr p)] else []) ++ [EAddNext (PStr p)].
Proof.
  intros skipped.
  assert (Hex : exec (PStr p) = Ret (PTuple [PBool skipped; PStr p])).
  { unfold SkipCheck.execute_item, skipped, SkipCheck.execute. destruct skip_all; [reflexivity|].
    repeat match goal with |- context [if ?b then _ else _] => destruct b end; reflexivity. }
  unfold events_of, loop_body, try_except, bind, lift, ret, emit. rewrite Hex. simpl.
  destruct skipped, verbose; reflexivity.
Qed.

End Config.
End SkipCheckWorker.

Module NearbyFacts.
Import Worker Context.

Local Abbreviation by_max := (fun a b : score * string => ext_le (snd (fst a)) (snd (fst b)) = true).

Lemma ext_le_total (a b : ext) : ext_le a b = false -> ext_le b a = true.
Proof. destruct a, b; simpl; try discriminate; auto. intros H. apply Z.leb_gt in H. apply Z.leb_le. lia. Qed.

Lemma insert_by_max_in (x e : score * string) (l : list (score * string)) :
  In e (insert_by_max x l) <-> x = e \/ In e l.
Proof.
  induction l as [|y l IH]; simpl; [tauto|].
  destruct (ext_le _ _); simpl; [rewrite IH|]; tauto.
Qed.

Lemma insert_by_max_cons (x y : score * string) (l : list (score * string)) :
  DiscoverExec.sorted_by by_max (y :: l) -> ext_le (snd (fst y)) (snd (fst x)) = true ->
  DiscoverExec.sorted_by by_max (y :: insert_by_max x l).
Proof.
  revert y. induction l as [|z l IH]; intros y Hs Hyx; simpl; [tauto|].
  destruct (ext_le (snd (fst z)) (snd (fst x))) eqn:Hzx.
  - destruct Hs as [Hyz Hs]. split; [exact Hyz|]. apply IH; assumption.
  - destruct Hs as [Hyz Hs]. split; [exact Hyx|]. split; [apply ext_le_total, Hzx|exact Hs].
Qed.

Lemma insert_by_max_sorted (x : score * string) (l : list (score * string)) :
  DiscoverExec.sorted_by by_max l -> DiscoverExec.sorted_by by_max (insert_by_max x l).
Proof.
  destruct l as [|y l]; intros Hs; simpl; [exact I|].
  destruct (ext_le (snd (fst y)) (snd (fst x))) eqn:Hyx.
  - apply insert_by_max_cons; assumption.
  - split; [apply ext_le_total, Hyx|exact Hs].
Qed.

Lemma sort_by_max_spec (l : list (score * string)) : forall acc,
  DiscoverExec.sorted_by by_max acc ->
  DiscoverExec.sorted_by by_max (fold_left (fun acc x => insert_by_max x acc) l acc)
  /\ forall e, In e (fold_left (fun acc x => insert_by_max x acc) l acc) <-> In e acc \/ In e l.
Proof.
  induction l as [|x l IH]; intros acc Hs; simpl; [split; [exact Hs|tauto]|].
  destruct (IH (insert_by_max x acc) (insert_by_max_sorted x acc Hs)) as [Hs' Hin].
  split; [exact Hs'|]. intros e. rewrite Hin, insert_by_max_in. tauto.
Qed.

Section Nearby.
Context (get_image_metadata : string -> Metadata) (normpath : string -> string)
        (collect_images : string -> list string).

Lemma score_all_in (input_path : string) (md : Metadata) (imgs : list string) :
  forall l, score_all get_image_metadata normpath input_path md imgs = Ret l ->
  forall e, In e l -> normpath (snd e) <> normpath input_path /\ In (snd e) imgs.
Proof.
  induction imgs as [|img imgs IH]; intros l H e He; simpl in H.
  - injection H as <-. destruct He.
  - case_decide as Hn.
    + destruct (IH l H e He) as [H1 H2]. split; [exact H1|right; exact H2].
    + destruct (calculate_relevance_score _ _) as [sc|err]; [|discriminate].
      destruct (score_all _ _ _ _ imgs) as [rest|err] eqn:Hr; [|discriminate].
      injection H as <-. destruct He as [<-|He].
      * split; [exact Hn|left; reflexivity].
      * destruct (IH rest eq_refl e He) as [H1 H2]. split; [exact H1|right; exact H2].
Qed.

(** [_get_nearby_images] returns candidates sorted by ascending upper score
    bound, each among the images collected and none with the target's
    normalised path. *)
Theorem nearby_images_ranked_without_target (input_path : string) (md : Metadata) :
  let cands := get_nearby_images get_image_metadata normpath collect_images input_path md in
  DiscoverExec.sorted_by by_max cands
  /\ forall e, In e cands ->
       normpath (snd e) <> normpath input_path /\ In (snd e) (collect_images input_path).
Proof.
  simpl. unfold get_nearby_images.
  destruct (collect_images input_path) as [|img imgs] eqn:Hc; [split; [exact I|intros e []]|].
  rewrite <- Hc.
  destruct (score_all _ _ _ _ _) as [l|err] eqn:Hs; [|split; [exact I|intros e []]].
  destruct (sort_by_max_spec l [] I) as [Hsort Hin].
  split; [exact Hsort|]. intros e He. apply Hin in He as [[]|He].
  exact (score_all_in _ _ _ l Hs e He).
Qed.

End Nearby.
End NearbyFacts.

(* ===================================================================== *)
(** * The properties on concrete inputs *)
(* ===================================================================== *)

Module Examples.
Import Worker Inputs Samples.

Local Abbreviation discover_item := (DiscoverExec.execute_item w_join d_isdir d_isfile d_listdir d_exts "natural_asc").

Ltac keys_ok :=
  intros ? He; simpl in He;
  repeat (destruct He as [<-|He]; [split; eexists; vm_compute; reflexivity|]); destruct He.

Lemma diff_flag_sticky_witness :
  exists rest, StatsFmt.format (StatsFmt.rrun Stats.init [StatsFmt.RCall (Stats.CFinish 3); StatsFmt.RReset])
               = (StatsFmt.str_of_Z (Stats.input (StatsFmt.rrun Stats.init
                    [StatsFmt.RCall (Stats.CFinish 3); StatsFmt.RReset])) ++ ">" ++ rest)%string.
Proof.
  exact (proj2 (StatsFmtFacts.diff_flag_sticky [StatsFmt.RCall (Stats.CFinish 3); StatsFmt.RReset]) eq_refl).
Defined.

Lemma fixed_copy_same_extension_witness :
  DiscoverExec.ext_of "photos/IMG_1.fixed.JPG" = DiscoverExec.ext_of "photos/IMG_1.JPG".
Proof. exact (PathFacts.fixed_copy_same_extension "photos/IMG_1.JPG" ltac:(vm_compute; discriminate)). Defined.

Lemma natural_key_comparisons_never_raise_witness :
  exists r, DiscoverExec.list_lt [DiscoverExec.KStr "img"; DiscoverExec.KInt 10; DiscoverExec.KStr ".jpg"]
                                 [DiscoverExec.KStr "img"; DiscoverExec.KInt 9; DiscoverExec.KStr ".jpg"] = Ret r.
Proof.
  apply (DiscoverExecFacts.natural_key_comparisons_never_raise "img10.jpg" "img9.jpg");
    vm_compute; reflexivity.
Defined.

Lemma discover_execute_listing_witness :
  DiscoverExec.execute w_join d_isdir d_isfile d_listdir d_exts "natural_asc" "/in"
  = Ret (PTuple [PList [PStr "/in/b.jpg"]; PList [PStr "/in/sub"]]).
Proof.
  destruct (DiscoverExecFacts.discover_execute_listing w_join d_isdir d_isfile d_listdir d_exts "natural_asc"
              "/in" ["b.jpg"; "sub"; "a.txt"] eq_refl eq_refl ltac:(keys_ok))
    as (files & dirs & Hex & Hf & Hd & _).
  change (files ≡ₚ ["b.jpg"; "a.txt"]) in Hf. change (dirs ≡ₚ ["/in/sub"]) in Hd.
  apply Permutation_sym, Permutation_length_1_inv in Hd. apply Permutation_sym, Permutation_length_2_inv in Hf.
  rewrite Hex, Hd. destruct Hf as [-> | ->]; vm_compute; reflexivity.
Defined.

Lemma discover_worker_unlistable_witness :
  events_of (loop_body discover_item true None None true true false (PStr "/gone"))
  = [EFinish (PStr "/gone") 0].
Proof.
  exact (DiscoverWorkerFacts.discover_worker_unlistable w_join d_isdir d_isfile d_listdir d_exts
           "natural_asc" false "/gone" (or_intror (ex_intro _ (PExc "PermissionError") eq_refl))).
Defined.

Lemma discover_worker_listing_witness :
  events_of (loop_body discover_item true None None true true false (PStr "/in"))
  = [EFinish (PStr "/in") 2; EPending [PStr "/in/sub"]; EAddNext (PStr "/in/b.jpg")].
Proof.
  destruct (DiscoverWorkerFacts.discover_worker_listing w_join d_isdir d_isfile d_listdir d_exts
              "natural_asc" false "/in" ["b.jpg"; "sub"; "a.txt"] eq_refl eq_refl ltac:(keys_ok))
    as (files & dirs & Hev & Hf & Hd & _).
  change (files ≡ₚ ["b.jpg"; "a.txt"]) in Hf. change (dirs ≡ₚ ["/in/sub"]) in Hd.
  apply Permutation_sym, Permutation_length_1_inv in Hd. apply Permutation_sym, Permutation_length_2_inv in Hf.
  rewrite Hev, Hd. destruct Hf as [-> | ->]; vm_compute; reflexivity.
Defined.

Lemma discover_worker_key_error_fails_directory_witness :
  events_of (loop_body discover_item true None None true true false (PStr "/bad")) = [EFail (PStr "/bad")].
Proof.
  exact (DiscoverWorkerFacts.discover_worker_key_error_fails_directory w_join d_isdir d_isfile d_listdir
           d_exts "natural_asc" false "/bad" [("photo1" ++ sup2)%string] ("photo1" ++ sup2)%string
           DiscoverExec.value_error_int eq_refl eq_refl (or_introl eq_refl) eq_refl eq_refl
           ltac:(vm_compute; reflexivity)).
Defined.

Lemma worker_rejection_is_final_witness :
  events_of (loop_body skip_true true (Some SkipCheck.second_field) (Some first_field) false false false
               (PStr "a.jpg"))
  = [EReject (PStr "a.jpg")].
Proof.
  apply (WorkerFacts3.worker_rejection_is_final _ _ _ _ _ _ _ _ (PStr "a.jpg")).
  vm_compute. left. reflexivity.
Defined.

Lemma worker_list_fanout_witness :
  events_of (loop_body two_paths true None None false false true (PStr "d"))
  = [EFinish (PStr "d") 2; EVerbose (PStr "d"); EAddNext (PStr "x.jpg"); EAddNext (PStr "y.jpg")].
Proof. exact (WorkerFacts3.worker_list_fanout two_paths false false true (PStr "d") _ eq_refl). Defined.

Local Abbreviation write fmt env files it :=
  (Write.execute (DT:=unit) (fun _ => "") (Some "/in") (Some "/out") "{content}" ".txt" ".error.txt"
     w_relpath w_join fmt env files it).

Local Abbreviation cat_item := (Write.Item3 (DT:=unit) "a.jpg" (Write.PContent "a cat") None).

Lemma write_touches_only_its_artifacts_witness :
  snd (write w_format os_ok w_files cat_item) !! "/out/b.jpg.txt" = w_files !! "/out/b.jpg.txt".
Proof.
  apply (WriteRoundTrip.write_touches_only_its_artifacts (DT:=unit) (fun _ => "") (Some "/in") (Some "/out")
           "{content}" ".txt" ".error.txt" w_relpath w_join w_format os_ok w_files cat_item "/out/b.jpg.txt");
    apply String.eqb_neq; vm_compute; reflexivity.
Defined.


Lemma write_keyerror_writes_content_verbatim_witness :
  fst (write fmt_key_error os_ok w_files cat_item) = Ret "/out/a.jpg.txt"
  /\ snd (write fmt_key_error os_ok w_files cat_item) !! "/out/a.jpg.txt" = Some "a cat".
Proof.
  exact (WriteRoundTrip.write_keyerror_writes_content_verbatim (DT:=unit) (fun _ => "") (Some "/in") (Some "/out")
           "{content}" ".txt" ".error.txt" w_relpath w_join fmt_key_error os_ok w_files cat_item
           "a.jpg" "a cat" None eq_refl (fun _ => eq_refl) ltac:(vm_compute; reflexivity)
           ltac:(vm_compute; reflexivity) ltac:(apply String.eqb_neq; vm_compute; reflexivity)).
Defined.

Lemma write_lifecycle_when_file_operations_succeed_witness :
  (fst (write w_format os_ok w_files cat_item) = Ret "/out/a.jpg.txt"
   /\ snd (write w_format os_ok w_files cat_item) !! "/out/a.jpg.txt" = Some "formatted"
   /\ snd (write w_format os_ok w_files cat_item) !! "/out/a.jpg.error.txt" = None)
  /\ write w_format os_ok ∅ (Write.Item2 "a.jpg" (Write.PError "timeout"))
     = (Ret "/out/a.jpg.error.txt",
        <["/out/a.jpg.error.txt" := ("timeout" ++ String (Ascii.ascii_of_nat 10) EmptyString)%string]> ∅).
Proof.
  split.
  - exact (proj1 (WriteRoundTrip.write_lifecycle_when_file_operations_succeed (DT:=unit) (fun _ => "")
             (Some "/in") (Some "/out") "{content}" ".txt" ".error.txt" w_relpath w_join w_format os_ok
             w_files cat_item "a.jpg" None (fun _ _ => eq_refl) (fun _ _ => eq_refl) (fun _ _ => eq_refl))
             "a cat" "formatted" eq_refl ltac:(vm_compute; discriminate) eq_refl
             ltac:(apply String.eqb_neq; vm_compute; reflexivity)).
  - exact (proj2 (WriteRoundTrip.write_lifecycle_when_file_operations_succeed (DT:=unit) (fun _ => "")
             (Some "/in") (Some "/out") "{content}" ".txt" ".error.txt" w_relpath w_join w_format os_ok
             ∅ (Write.Item2 "a.jpg" (Write.PError "timeout")) "a.jpg" None
             (fun _ _ => eq_refl) (fun _ _ => eq_refl) (fun _ _ => eq_refl))
             "timeout" eq_refl ltac:(vm_compute; discriminate)).
Defined.

Lemma written_description_reads_back_witness :
  ContextRead.read_description (Some "/in") (Some "/out") w_relpath w_join
    (snd (write w_format os_ok w_files cat_item)) "a.jpg" true
  = Some "formatted".
Proof.
  exact (WriteRoundTrip.written_description_reads_back (DT:=unit) (fun _ => "") (Some "/in") (Some "/out")
           "{content}" w_relpath w_join w_format os_ok w_files cat_item "a.jpg" "a cat" "formatted" None
           eq_refl eq_refl ltac:(vm_compute; reflexivity) ltac:(apply String.eqb_neq; vm_compute; reflexivity)).
Defined.

Lemma blank_description_reads_as_missing_witness :
  Context.execute
    (fun q => ContextRead.read_description (Some "/in") (Some "/out") w_relpath w_join
                (snd (write fmt_blank os_ok w_files cat_item)) q true)
    ctx_meta ctx_normpath ctx_collect 20 "a.jpg"
  = PTuple [PStr "a.jpg"; PStr ""; PList []].
Proof.
  exact (WriteRoundTrip.blank_description_reads_as_missing (DT:=unit) (fun _ => "") (Some "/in") (Some "/out")
           "{content}" w_relpath w_join fmt_blank os_ok w_files cat_item "a.jpg" "a cat" _ None
           ctx_meta ctx_normpath ctx_collect 20
           eq_refl eq_refl ltac:(vm_compute; reflexivity) ltac:(apply String.eqb_neq; vm_compute; reflexivity)
           ltac:(vm_compute; reflexivity)).
Defined.

Lemma written_description_is_skipped_witness :
  SkipCheck.execute (Some "/in") (Some "/out") false false ".txt" true w_relpath w_join
    (SkipCheck.exists_in (snd (write w_format os_ok w_files cat_item))) "a.jpg"
  = (true, "a.jpg")
  /\ SkipCheck.execute (Some "/in") (Some "/out") true false ".txt" false w_relpath w_join
       (SkipCheck.exists_in (snd (write w_format os_ok w_files cat_item))) "a.jpg"
     = (false, "a.jpg").
Proof.
  split.
  - exact (WriteRoundTrip.written_description_is_skipped (DT:=unit) (fun _ => "") (Some "/in") (Some "/out")
             "{content}" w_relpath w_join w_format os_ok w_files cat_item "a.jpg" "a cat" "formatted" None
             false false true eq_refl eq_refl ltac:(vm_compute; reflexivity)
             ltac:(apply String.eqb_neq; vm_compute; reflexivity)).
  - exact (WriteRoundTrip.written_description_is_skipped (DT:=unit) (fun _ => "") (Some "/in") (Some "/out")
             "{content}" w_relpath w_join w_format os_ok w_files cat_item "a.jpg" "a cat" "formatted" None
             true false false eq_refl eq_refl ltac:(vm_compute; reflexivity)
             ltac:(apply String.eqb_neq; vm_compute; reflexivity)).
Defined.

Lemma error_artifact_skipped_unless_retry_witness :
  SkipCheck.execute (Some "/in") (Some "/out") false true ".txt" false w_relpath w_join
    (SkipCheck.exists_in (snd (write w_format os_ok ∅ (Write.Item2 "a.jpg" (Write.PError "timeout")))))
    "a.jpg"
  = (false, "a.jpg")
  /\ SkipCheck.execute (Some "/in") (Some "/out") false false ".txt" false w_relpath w_join
       (SkipCheck.exists_in (snd (write w_format os_ok ∅ (Write.Item2 "a.jpg" (Write.PError "timeout")))))
       "a.jpg"
     = (true, "a.jpg").
Proof.
  split.
  - pose proof (WriteRoundTrip.error_artifact_skipped_unless_retry (DT:=unit) (fun _ => "") (Some "/in")
                  (Some "/out") "{content}" w_relpath w_join w_format os_ok ∅
                  (Write.Item2 "a.jpg" (Write.PError "timeout")) "a.jpg" "timeout" None false true
                  eq_refl ltac:(vm_compute; reflexivity) ltac:(apply String.eqb_neq; vm_compute; reflexivity)) as H.
    rewrite H. vm_compute. reflexivity.
  - pose proof (WriteRoundTrip.error_artifact_skipped_unless_retry (DT:=unit) (fun _ => "") (Some "/in")
                  (Some "/out") "{content}" w_relpath w_join w_format os_ok ∅
                  (Write.Item2 "a.jpg" (Write.PError "timeout")) "a.jpg" "timeout" None false false
                  eq_refl ltac:(vm_compute; reflexivity) ltac:(apply String.eqb_neq; vm_compute; reflexivity)) as H.
    rewrite H. vm_compute. reflexivity.
Defined.

End Examples.
